(** * Gitto: a shallow embedding of [gitto.py] and its properties

    The development follows the class [VCS] of [gitto.py].  The persistent
    state of a repository (the object directory, the index file, the HEAD
    file), the working tree and the text printed so far are gathered in one
    record; every method is a computation in a small state-and-exception
    monad over that record.

    Conventions of the embedding:
    - a Python [str] is a Rocq [string] holding its UTF-8 bytes, so that
      [content.encode("utf-8")] is the identity on the representation;
    - the content of a file is the text a text-mode [read()] returns;
    - the process runs with the repository root as its working directory,
      and paths are the normalised root-relative strings ("a.txt",
      "sub/a.txt") that [os.path.relpath] produces there;
    - object names, HEAD and parent fields are file names inside the object
      directory;
    - the repository has been initialised and found: [init], the parsing
      of the command line and [find_repo_dir] are left out. *)

From Stdlib Require Import ZArith List Ascii String.
From stdpp Require Import base gmap strings list.

#[global] Set Warnings "-clear-no-such-hyp,-level-tolerance".

Local Open Scope string_scope.
Local Open Scope list_scope.

(** ** SHA-1, as computed by [hashlib.sha1(...).hexdigest()] *)

Module Sha1.
Local Open Scope Z_scope.

Definition mask32 (x : Z) : Z := Z.land x 0xFFFFFFFF.
Definition add32 (x y : Z) : Z := mask32 (x + y).
Definition rotl (n x : Z) : Z :=
  mask32 (Z.lor (Z.shiftl x n) (Z.shiftr x (32 - n))).
Definition not32 (x : Z) : Z := Z.lxor x 0xFFFFFFFF.

Definition bytes_of_string (s : string) : list Z :=
  map (fun c => Z.of_N (N_of_ascii c)) (list_ascii_of_string s).

(** [n] big-endian bytes of [x]. *)
Fixpoint be_bytes (n : nat) (x : Z) : list Z :=
  match n with
  | O => []
  | S n' => be_bytes n' (Z.shiftr x 8) ++ [Z.land x 0xFF]
  end.

(** Message padding: a one bit, zeros, then the bit length on 64 bits. *)
Definition pad (msg : list Z) : list Z :=
  let len := Z.of_nat (length msg) in
  msg ++ [0x80] ++ repeat 0 (Z.to_nat ((55 - len) mod 64))
      ++ be_bytes 8 (8 * len).

Fixpoint words (bs : list Z) : list Z :=
  match bs with
  | b0 :: b1 :: b2 :: b3 :: rest =>
      (Z.lor (Z.shiftl b0 24)
         (Z.lor (Z.shiftl b1 16) (Z.lor (Z.shiftl b2 8) b3))) :: words rest
  | _ => []
  end.

Fixpoint blocks (fuel : nat) (ws : list Z) : list (list Z) :=
  match fuel, ws with
  | S fuel', _ :: _ => take 16 ws :: blocks fuel' (drop 16 ws)
  | _, _ => []
  end.

(** The message schedule, most recent word first. *)
Definition extend (rw : list Z) : list Z :=
  rotl 1 (Z.lxor (Z.lxor (nth 2 rw 0) (nth 7 rw 0))
                 (Z.lxor (nth 13 rw 0) (nth 15 rw 0))) :: rw.

Definition schedule (block : list Z) : list Z :=
  rev (Nat.iter 64 extend (rev block)).

Definition round_fk (t b c d : Z) : Z * Z :=
  if t <? 20 then (Z.lor (Z.land b c) (Z.land (not32 b) d), 0x5A827999)
  else if t <? 40 then (Z.lxor (Z.lxor b c) d, 0x6ED9EBA1)
  else if t <? 60 then
    (Z.lor (Z.lor (Z.land b c) (Z.land b d)) (Z.land c d), 0x8F1BBCDC)
  else (Z.lxor (Z.lxor b c) d, 0xCA62C1D6).

Definition regs : Type := Z * Z * Z * Z * Z.

Definition round (st : Z * regs) (w : Z) : Z * regs :=
  let '(t, (a, b, c, d, e)) := st in
  let '(f, k) := round_fk t b c d in
  let temp := add32 (add32 (add32 (add32 (rotl 5 a) f) e) k) w in
  (t + 1, (temp, a, rotl 30 b, c, d)).

Definition compress (h : regs) (block : list Z) : regs :=
  let '(h0, h1, h2, h3, h4) := h in
  let '(_, (a, b, c, d, e)) := fold_left round (schedule block) (0, h) in
  (add32 h0 a, add32 h1 b, add32 h2 c, add32 h3 d, add32 h4 e).

Definition init : regs :=
  (0x67452301, 0xEFCDAB89, 0x98BADCFE, 0x10325476, 0xC3D2E1F0).

Definition hex_digit (x : Z) : ascii :=
  ascii_of_N (Z.to_N (if x <? 10 then 48 + x else 87 + x)).

Fixpoint hex (n : nat) (x : Z) : string :=
  match n with
  | O => ""
  | S n' => hex n' (Z.shiftr x 4) +:+ String (hex_digit (Z.land x 0xF)) ""
  end.

Definition hexdigest (s : string) : string :=
  let ws := words (pad (bytes_of_string s)) in
  let '(h0, h1, h2, h3, h4) := fold_left compress (blocks (length ws) ws) init in
  hex 8 h0 +:+ hex 8 h1 +:+ hex 8 h2 +:+ hex 8 h3 +:+ hex 8 h4.
End Sha1.

(** [VCS.generate_hash] *)
Definition generate_hash (content : string) : string := Sha1.hexdigest content.


(** ** Text and path helpers *)

Definition TAB : string := String (ascii_of_nat 9) "".
Definition NL : string := String (ascii_of_nat 10) "".
Definition ESC : string := String (ascii_of_nat 27) "".

(** [needle in hay] on strings. *)
Fixpoint contains (needle hay : string) : bool :=
  String.prefix needle hay
  || match hay with
     | "" => false
     | String _ rest => contains needle rest
     end.

(** The ASCII characters [str.strip()] removes: tab to carriage return,
    the separators 28 to 31 and the space.  The HEAD file, the only text
    that is stripped, holds ASCII text. *)
Definition is_whitespace (c : ascii) : bool :=
  let n := nat_of_ascii c in
  (Nat.leb 9 n && Nat.leb n 13) || (Nat.leb 28 n && Nat.leb n 32).

Fixpoint lstrip (s : string) : string :=
  match s with
  | String c rest => if is_whitespace c then lstrip rest else s
  | "" => ""
  end.

Definition strip (s : string) : string :=
  String.rev (lstrip (String.rev (lstrip s))).

(** [os.path.join root name] for a relative [name]. *)
Definition path_join (root name : string) : string := root +:+ "/" +:+ name.

(** [os.path.split]: the directory part and the last component of a
    normalised relative path; the directory of a top-level file is [""]. *)
Fixpoint path_split (p : string) : string * string :=
  match p with
  | "" => ("", "")
  | String c rest =>
      let '(d, b) := path_split rest in
      if contains "/" rest then (String c d, b)
      else if Ascii.eqb c "/" then ("", rest)
      else ("", String c b)
  end.

Definition dirname (p : string) : string := (path_split p).1.
Definition basename (p : string) : string := (path_split p).2.

(** [s] without the prefix [pre], when it has it. *)
Fixpoint remove_prefix (pre s : string) : option string :=
  match pre, s with
  | "", _ => Some s
  | String a pre', String b s' =>
      if Ascii.eqb a b then remove_prefix pre' s' else None
  | _, _ => None
  end.

(** ** Python dictionaries with string keys and values

    A [dict] keeps its keys in insertion order; assignment to an existing
    key keeps its place. *)

Abbreviation dict := (list (string * string)).

Fixpoint dict_get (k : string) (d : dict) : option string :=
  match d with
  | [] => None
  | (k', v) :: d' => if decide (k = k') then Some v else dict_get k d'
  end.

Definition dict_mem (k : string) (d : dict) : bool :=
  bool_decide (is_Some (dict_get k d)).

Fixpoint dict_set (k v : string) (d : dict) : dict :=
  match d with
  | [] => [(k, v)]
  | (k', v') :: d' =>
      if decide (k = k') then (k, v) :: d' else (k', v') :: dict_set k v d'
  end.

Definition dict_del (k : string) (d : dict) : dict :=
  filter (λ kv, kv.1 ≠ k) d.

Definition dict_keys (d : dict) : list string := d.*1.

(** ** The state of a repository and of its surroundings *)

Record repo : Type := mkRepo {
  directory : string;            (* [self.directory], an absolute path *)
  worktree : gmap string string; (* files outside [.gitto]: path to text *)
  objects : gmap string string;  (* [.gitto/objects]: name to text *)
  index : dict;                  (* the mapping kept in [.gitto/index] *)
  HEAD : string;                 (* the text of [.gitto/HEAD] *)
  stdout : list string           (* one entry per [print] call *)
}.

Definition set_worktree (f : gmap string string → gmap string string)
    (st : repo) : repo :=
  mkRepo (directory st) (f (worktree st)) (objects st) (index st) (HEAD st)
         (stdout st).
Definition set_objects (f : gmap string string → gmap string string)
    (st : repo) : repo :=
  mkRepo (directory st) (worktree st) (f (objects st)) (index st) (HEAD st)
         (stdout st).
Definition set_index (d : dict) (st : repo) : repo :=
  mkRepo (directory st) (worktree st) (objects st) d (HEAD st) (stdout st).
Definition set_HEAD (h : string) (st : repo) : repo :=
  mkRepo (directory st) (worktree st) (objects st) (index st) h (stdout st).
Definition set_stdout (f : list string → list string) (st : repo) : repo :=
  mkRepo (directory st) (worktree st) (objects st) (index st) (HEAD st)
         (f (stdout st)).

(** ** Exceptions and the monad of methods *)

Inductive exn : Type :=
  | FileNotFoundError (path : string)
  | KeyError (key : string)
  | TypeError
  | NameError
  | ValueError (msg : string)
  | JSONDecodeError.

(** A call returns a value, raises an exception, or is still running when
    the fuel given to its loop is spent; the state reached is kept in every
    case. *)
Inductive outcome (A : Type) : Type :=
  | Returned (a : A) (st : repo)
  | Raised (e : exn) (st : repo)
  | OutOfFuel (st : repo).
Arguments Returned {A} a st.
Arguments Raised {A} e st.
Arguments OutOfFuel {A} st.

Definition M (A : Type) : Type := repo → outcome A.

Definition ret {A} (a : A) : M A := λ st, Returned a st.
Definition bind {A B} (m : M A) (k : A → M B) : M B :=
  λ st, match m st with
        | Returned a st' => k a st'
        | Raised e st' => Raised e st'
        | OutOfFuel st' => OutOfFuel st'
        end.
Definition raise {A} (e : exn) : M A := λ st, Raised e st.
Definition out_of_fuel {A} : M A := λ st, OutOfFuel st.
Definition gets {A} (f : repo → A) : M A := λ st, Returned (f st) st.
Definition modify (f : repo → repo) : M unit := λ st, Returned tt (f st).

Definition final_state {A} (o : outcome A) : repo :=
  match o with
  | Returned _ st | Raised _ st | OutOfFuel st => st
  end.

Declare Scope py_scope.
Delimit Scope py_scope with py.
Notation "x ← y ; z" := (bind y (λ x : _, z)) (only parsing) : py_scope.
Notation "' x ← y ; z" := (bind y (λ x : _, z)) (only parsing) : py_scope.
Notation "x ;; z" := (bind x (λ _, z)) (only parsing) : py_scope.
Local Open Scope py_scope.

Definition print (line : string) : M unit :=
  modify (set_stdout (λ out, out ++ [line])).

(** The outcome of a loop body: go on with the loop variables [s], or
    leave the method with a bare [return]. *)
Inductive flow (S : Type) : Type :=
  | Next (s : S)
  | Return.
Arguments Next {S} s.
Arguments Return {S}.

(** [for x in l: body], where the body may [return]. *)
Fixpoint for_each {A S} (l : list A) (body : A → S → M (flow S)) (s : S)
    : M (flow S) :=
  match l with
  | [] => ret (Next s)
  | x :: l' =>
      r ← body x s;
      match r with
      | Next s' => for_each l' body s'
      | Return => ret Return
      end
  end.

(** [for x in l: body], where the body falls through. *)
Fixpoint for_ {A S} (l : list A) (body : A → S → M S) (s : S) : M S :=
  match l with
  | [] => ret s
  | x :: l' => s' ← body x s; for_ l' body s'
  end.

(** Truth value of an [Optional[str]]: [None] and [""] are false. *)
Definition truthy (o : option string) : bool :=
  match o with
  | Some s => negb (String.eqb s "")
  | None => false
  end.

(** ** Commit records and their JSON text *)

Record commit_json : Type := mkCommit {
  timestamp : string;
  message : string;
  files : dict;
  parent : option string
}.

Module Json.
Local Open Scope Z_scope.

Definition DQ : string := String (ascii_of_nat 34) EmptyString.
Definition BS : string := String (ascii_of_nat 92) EmptyString.

Definition u_escape (n : Z) : string := BS +:+ "u" +:+ Sha1.hex 4 n.

(** A code point outside the printable ASCII range, as [json.dumps] writes
    it with [ensure_ascii]: one escape, or a surrogate pair. *)
Definition escape_code_point (cp : Z) : string :=
  if cp <? 0x10000 then u_escape cp
  else
    let v := cp - 0x10000 in
    u_escape (Z.lor 0xD800 (Z.land (Z.shiftr v 10) 0x3FF))
    +:+ u_escape (Z.lor 0xDC00 (Z.land v 0x3FF)).

Definition escape_ascii (b : Z) : string :=
  if b =? 34 then BS +:+ DQ
  else if b =? 92 then BS +:+ BS
  else if b =? 10 then BS +:+ "n"
  else if b =? 13 then BS +:+ "r"
  else if b =? 9 then BS +:+ "t"
  else if b =? 8 then BS +:+ "b"
  else if b =? 12 then BS +:+ "f"
  else if (b <? 32) || (b =? 127) then u_escape b
  else String (ascii_of_N (Z.to_N b)) EmptyString.

Definition low6 (b : Z) : Z := Z.land b 0x3F.

(** The escaped text of a string given by its UTF-8 bytes. *)
Fixpoint escape (bs : list Z) : string :=
  match bs with
  | [] => EmptyString
  | b :: rest =>
      if b <? 0x80 then escape_ascii b +:+ escape rest
      else
        match rest with
        | b1 :: rest1 =>
            if b <? 0xE0 then
              escape_code_point (Z.lor (Z.shiftl (Z.land b 0x1F) 6) (low6 b1))
              +:+ escape rest1
            else
              match rest1 with
              | b2 :: rest2 =>
                  if b <? 0xF0 then
                    escape_code_point
                      (Z.lor (Z.shiftl (Z.land b 0x0F) 12)
                         (Z.lor (Z.shiftl (low6 b1) 6) (low6 b2)))
                    +:+ escape rest2
                  else
                    match rest2 with
                    | b3 :: rest3 =>
                        escape_code_point
                          (Z.lor (Z.shiftl (Z.land b 0x07) 18)
                             (Z.lor (Z.shiftl (low6 b1) 12)
                                (Z.lor (Z.shiftl (low6 b2) 6) (low6 b3))))
                        +:+ escape rest3
                    | [] => u_escape b +:+ escape rest2
                    end
              | [] => u_escape b +:+ escape rest1
              end
        | [] => u_escape b
        end
  end.

Definition dumps_str (s : string) : string :=
  DQ +:+ escape (Sha1.bytes_of_string s) +:+ DQ.

Fixpoint dumps_items (d : dict) : string :=
  match d with
  | [] => EmptyString
  | [(k, v)] => dumps_str k +:+ ": " +:+ dumps_str v
  | (k, v) :: d' => dumps_str k +:+ ": " +:+ dumps_str v +:+ ", " +:+ dumps_items d'
  end.

Definition dumps_dict (d : dict) : string := "{" +:+ dumps_items d +:+ "}".

Definition dumps_optional (o : option string) : string :=
  match o with
  | None => "null"
  | Some s => dumps_str s
  end.
End Json.

(** [json.dumps(commit_json)] for the dictionary that [commit] builds. *)
Definition json_dumps (c : commit_json) : string :=
  "{" +:+ Json.dumps_str "timestamp" +:+ ": " +:+ Json.dumps_str (timestamp c)
  +:+ ", " +:+ Json.dumps_str "message" +:+ ": " +:+ Json.dumps_str (message c)
  +:+ ", " +:+ Json.dumps_str "files" +:+ ": " +:+ Json.dumps_dict (files c)
  +:+ ", " +:+ Json.dumps_str "parent" +:+ ": "
  +:+ Json.dumps_optional (parent c) +:+ "}".

(** ** Library calls kept abstract

    [json_loads text] is [Some c] when [json.loads(text)] is a commit
    dictionary with the four keys of [commit_json] (a JSON [null] parent is
    [None]), and [None] when decoding or one of the key accesses of the
    caller raises.  [format_date ts] stands for
    [datetime.fromisoformat(ts).strftime("%d %b %Y  %H:%M:%S %z")], [None]
    when it raises; [unified_diff old new] for
    [difflib.unified_diff(old.splitlines(), new.splitlines())] with an
    empty [lineterm]. *)

Class PyLib : Type := {
  json_loads : string → option commit_json;
  format_date : string → option string;
  unified_diff : string → string → list string
}.

(** The command line after parsing, [init] apart. *)
Inductive args : Type :=
  | Add (paths : list string)
  | Restore (staged : bool) (paths : list string)
  | Status
  | Commit (msg : string)
  | Log
  | ShowDiff (commit_hash : string).

(** ** The methods of [VCS] *)

Section VCS.
Context `{PyLib}.

(** [open(path, "r").read()] in the working tree. *)
Definition read_file (path : string) : M string :=
  λ st, match worktree st !! path with
        | Some text => Returned text st
        | None => Raised (FileNotFoundError path) st
        end.

(** [open(path, "w").write(text)] in the working tree. *)
Definition write_file (path text : string) : M unit :=
  modify (set_worktree <[path := text]>).

Definition write_object (name text : string) : M unit :=
  modify (set_objects <[name := text]>).

(** [os.path.exists(os.path.join(self.objects_path, name))] *)
Definition object_exists (name : string) : M bool :=
  gets (λ st, bool_decide (is_Some (objects st !! name))).

Definition load_index : M dict := gets index.
Definition dump_index (d : dict) : M unit := modify (set_index d).

Definition loads (text : string) : M commit_json :=
  match json_loads text with
  | Some c => ret c
  | None => raise JSONDecodeError
  end.

Definition get_current_head : M (option string) :=
  text ← gets HEAD;
  let head := strip text in
  if String.eqb head "" then ret None else ret (Some head).

(** [os.path.join(self.objects_path, None)] raises [TypeError]. *)
Definition get_commit_data (commit_hash : option string)
    : M (option string) :=
  match commit_hash with
  | None => raise TypeError
  | Some h => gets (λ st, objects st !! h)
  end.

Definition get_file_content (file_hash : string) : M string :=
  λ st, match objects st !! file_hash with
        | Some text => Returned text st
        | None =>
            Raised (FileNotFoundError
                      (path_join (directory st)
                                 (".gitto/objects/" +:+ file_hash))) st
        end.

Definition append_to_staging_area (file_path file_hash : string) : M unit :=
  index ← load_index;
  dump_index (dict_set file_path file_hash index).

Definition update_head (commit_hash : string) : M unit :=
  modify (set_HEAD commit_hash).

Definition get_staged_files : M (gset string) :=
  index ← load_index;
  for_ (dict_keys index)
       (λ file_path staged_files, ret ({[file_path]} ∪ staged_files))
       (∅ : gset string).

(** Lines 159 to 165, the body of the loop over the committed files; the
    loop variables are [tracked_files] and [tracked_files_with_changes]. *)
Definition scan_committed_file (staged_files : gset string)
    (entry : string * string) (sets : gset string * gset string)
    : M (gset string * gset string) :=
  let '(file, file_hash) := entry in
  let '(tracked, changed) := sets in
  if decide (file ∈ staged_files) then ret (tracked, changed)
  else
    content ← read_file file;
    ret ({[file]} ∪ tracked,
         if decide (generate_hash content ≠ file_hash)
         then {[file]} ∪ changed else changed).

(** Lines 170 to 177, the body of the loop over the staged files. *)
Definition scan_staged_file (tracked_files : gset string) (index : dict)
    (file_path : string) (changed : gset string) : M (gset string) :=
  if decide (file_path ∈ tracked_files) then ret changed
  else
    content ← read_file file_path;
    match dict_get file_path index with
    | None => raise (KeyError file_path)
    | Some staged_hash =>
        ret (if decide (generate_hash content ≠ staged_hash)
             then {[file_path]} ∪ changed else changed)
    end.

(** Lines 153 to 165: the files of the commit HEAD names. *)
Definition scan_committed (staged_files : gset string)
    : M (gset string * gset string) :=
  head ← get_current_head;
  if truthy head then
    commit_json ← get_commit_data head;
    if truthy commit_json then
      c ← loads (default "" commit_json);
      for_ (files c) (scan_committed_file staged_files)
           ((∅ : gset string), (∅ : gset string))
    else ret (∅, ∅)
  else ret (∅, ∅).

Definition get_tracked_files (staged_files : gset string)
    : M (gset string * gset string) :=
  '(tracked_files, tracked_files_with_changes) ←
    scan_committed staged_files;
  index ← load_index;
  changed ←
    for_ (elements staged_files) (scan_staged_file tracked_files index)
         tracked_files_with_changes;
  ret (tracked_files, changed).

(** [os.walk(self.directory)]: the root, then every other directory that
    holds a file, each with the names of its files.  The control directory
    is left out: line 183 skips it. *)
Definition os_walk (st : repo) : list (string * list string) :=
  let paths := (map_to_list (worktree st)).*1 in
  (λ d, (if decide (d = "") then directory st
         else path_join (directory st) d,
         basename <$> filter (λ p, dirname p = d) paths))
    <$> "" :: remove_dups (filter (λ d, d ≠ "") (dirname <$> paths)).

(** [os.path.relpath(p)] for [p] below the working directory. *)
Definition relpath (p : string) : M string :=
  gets (λ st, default p (remove_prefix (directory st +:+ "/") p)).

(** Lines 186 to 193, the body of the loop over the files of a directory. *)
Definition scan_walked_file (staged_files tracked_files : gset string)
    (root file : string) (untracked_files : gset string) : M (gset string) :=
  if decide (file = "gitto.py") then ret untracked_files
  else
    file_path ← relpath (path_join root file);
    if decide ((file_path ∉ staged_files) ∧ (file_path ∉ tracked_files)) then
      content ← read_file file;
      let file_hash := generate_hash content in
      stored ← object_exists file_hash;
      if negb stored then ret ({[file_path]} ∪ untracked_files)
      else ret untracked_files
    else ret untracked_files.

(** Lines 183 to 193, the body of the loop over the directories. *)
Definition scan_walked_dir (staged_files tracked_files : gset string)
    (entry : string * list string) (untracked_files : gset string)
    : M (gset string) :=
  let '(root, files) := entry in
  if contains ".gitto" root then ret untracked_files
  else
    for_ files (scan_walked_file staged_files tracked_files root)
         untracked_files.

Definition get_untracked_files (staged_files tracked_files : gset string)
    : M (gset string) :=
  walk ← gets os_walk;
  for_ walk (scan_walked_dir staged_files tracked_files) (∅ : gset string).

Definition add_file (file_path : string) : M unit :=
  file_data ← read_file file_path;
  let file_hash := generate_hash file_data in
  write_object file_hash file_data;;
  append_to_staging_area file_path file_hash;;
  print ("'" +:+ file_path +:+ "' added to staging area").

(** Lines 44 to 52, the body of the first loop of [add]; the loop variable
    is [addAll]. *)
Definition check_path (staged_files tracked_files untracked_files : gset string)
    (path : string) (addAll : bool) : M (flow bool) :=
  if decide (path = ".") then ret (Next true)
  else if decide ((path ∉ staged_files) ∧ (path ∉ tracked_files)
                  ∧ (path ∉ untracked_files)) then
    print ("'" +:+ path +:+ "' did not match any files");;
    ret Return
  else ret (Next addAll).

Definition add (paths : list string) : M unit :=
  staged_files ← get_staged_files;
  '(tracked_files, tracked_files_with_changes) ←
    get_tracked_files staged_files;
  untracked_files ← get_untracked_files staged_files tracked_files;
  r ← for_each paths
        (check_path staged_files tracked_files untracked_files) false;
  match r with
  | Return => ret tt
  | Next addAll =>
      if addAll : bool then
        for_ (elements tracked_files_with_changes)
             (λ path _, add_file path) tt;;
        for_ (elements untracked_files) (λ path _, add_file path) tt
      else
        for_ paths
          (λ path _,
             if decide (path ∈ tracked_files_with_changes
                        ∨ path ∈ untracked_files) then add_file path
             else print ("'" +:+ path +:+ "' already added to staging area"))
          tt
  end.

Definition unstage_file (file_path : string) : M unit :=
  index ← load_index;
  if dict_mem file_path index then
    dump_index (dict_del file_path index);;
    print ("'" +:+ file_path +:+ "' unstaged")
  else print ("'" +:+ file_path +:+ "' is not in the staging area").

Definition unstage (paths : list string) : M unit :=
  staged_files ← get_staged_files;
  for_ paths
    (λ path _,
       if decide (path ∈ staged_files) then unstage_file path
       else print ("'" +:+ path +:+ "' is not in the staging area"))
    tt.

(** Lines 117 to 124, the body of the loop of [restore_file]. *)
Definition restore_match (path : string) (entry : string * string)
    (_ : unit) : M (flow unit) :=
  let '(file, file_hash) := entry in
  if decide (path = file) then
    committed_file_content ← get_file_content file_hash;
    write_file file committed_file_content;;
    print ("'" +:+ path +:+ "' restored to last commit version");;
    ret Return
  else ret (Next tt).

Definition restore_file (path : string) : M unit :=
  head ← get_current_head;
  commit_json ← get_commit_data head;
  if truthy commit_json then
    c ← loads (default "" commit_json);
    for_each (files c) (restore_match path) tt;;
    ret tt
  else ret tt.

Definition restore (paths : list string) : M unit :=
  head ← get_current_head;
  (if negb (truthy head) then print "No commit found" else ret tt);;
  staged_files ← get_staged_files;
  '(tracked_files, tracked_files_with_changes) ←
    get_tracked_files staged_files;
  for_ paths
    (λ path _,
       if decide (path ∈ tracked_files_with_changes) then restore_file path
       else if decide (path ∈ tracked_files) then
         print ("'" +:+ path +:+ "' has no changes to be restored")
       else print ("'" +:+ path +:+ "' is not being tracked"))
    tt.

Definition status : M unit :=
  staged_files ← get_staged_files;
  '(tracked_files, tracked_files_with_changes) ←
    get_tracked_files staged_files;
  untracked_files ← get_untracked_files staged_files tracked_files;
  if decide (staged_files = ∅ ∧ tracked_files_with_changes = ∅
             ∧ untracked_files = ∅) then
    print "nothing to commit, working tree clean"
  else
    (if decide (staged_files ≠ ∅) then
       print "Changes to be committed:";;
       for_ (elements staged_files)
            (λ file _, print (ESC +:+ "[92m" +:+ TAB +:+ file +:+ ESC +:+ "[0m"))
            tt;;
       print ""
     else ret tt);;
    (if decide (tracked_files_with_changes ≠ ∅) then
       print "Changes not staged for commit:";;
       for_ (elements tracked_files_with_changes)
            (λ file _, print (ESC +:+ "[91m" +:+ TAB +:+ file +:+ ESC +:+ "[0m"))
            tt;;
       print ""
     else ret tt);;
    (if decide (untracked_files ≠ ∅) then
       print "Untracked files:";;
       for_ (elements untracked_files)
            (λ file _, print (ESC +:+ "[91m" +:+ TAB +:+ file +:+ ESC +:+ "[0m"))
            tt
     else ret tt).

(** The truth value of the file object [f] that line 246 tests: a file
    object, open or closed, is true. *)
Definition file_object_truthy : bool := true.

(** [now] is the text of [datetime.now().isoformat()]. *)
Definition commit (now : string) (msg : string) : M unit :=
  index ← load_index;
  if negb file_object_truthy then print "No changes to commit "
  else
    parent_commit ← get_current_head;
    let commit_json := mkCommit now msg index parent_commit in
    let commit_hash := generate_hash (json_dumps commit_json) in
    write_object commit_hash (json_dumps commit_json);;
    update_head commit_hash;;
    dump_index [];;
    print ("Commit successfully created with commit hash: " +:+ commit_hash).

(** The [while head:] loop of [log]; [fuel] bounds its iterations. *)
Fixpoint log_loop (fuel : nat) (head : option string) : M unit :=
  if truthy head then
    match fuel with
    | O => out_of_fuel
    | S fuel' =>
        commit_json ← get_commit_data head;
        match commit_json with
        | None =>
            raise (ValueError ("Commit data for hash " +:+ default "" head
                               +:+ " not found."))
        | Some text =>
            c ← loads text;
            match format_date (timestamp c) with
            | None => raise (ValueError "Invalid isoformat string")
            | Some formatted_date =>
                print ("Commit:" +:+ TAB +:+ default "" head +:+ NL
                       +:+ "Date:" +:+ TAB +:+ formatted_date +:+ NL +:+ NL
                       +:+ TAB +:+ message c +:+ NL);;
                log_loop fuel' (parent c)
            end
        end
    end
  else ret tt.

Definition log (fuel : nat) : M unit :=
  head ← get_current_head;
  if truthy head then log_loop fuel head
  else print "Gitto repository does not have any commits yet".

(** Lines 327 to 333: one line of the diff, coloured by its first
    character. *)
Definition print_diff_line (line : string) : M unit :=
  match line with
  | String c rest =>
      if Ascii.eqb c "+" then
        print (ESC +:+ "[92m+" +:+ String c "" +:+ " " +:+ rest +:+ ESC +:+ "[0m")
      else if Ascii.eqb c "-" then
        print (ESC +:+ "[91m-" +:+ String c "" +:+ " " +:+ rest +:+ ESC +:+ "[0m")
      else print (ESC +:+ "[90m" +:+ line +:+ ESC +:+ "[0m")
  | "" => print (ESC +:+ "[90m" +:+ ESC +:+ "[0m")
  end.

(** Lines 303 to 343, the body of the loop of [show_commit_diff]. *)
Definition show_file_diff (commit_json : commit_json)
    (entry : string * string) (_ : unit) : M (flow unit) :=
  let '(file_path, file_hash) := entry in
  print ("File: " +:+ file_path);;
  file_content ← get_file_content file_hash;
  if truthy (parent commit_json) then
    parent_commit_data ← get_commit_data (parent commit_json);
    match parent_commit_data with
    | None => print "Parent commit not found";; ret Return
    | Some parent_text =>
        parent_commit_json ← loads parent_text;
        match dict_get file_path (files parent_commit_json) with
        | Some parent_hash =>
            parent_file_content ← get_file_content parent_hash;
            for_ (unified_diff parent_file_content file_content)
                 (λ line _, print_diff_line line) tt
        | None => ret tt
        end;;
        (if negb (dict_mem file_path (files parent_commit_json))
         then print "New file in this commit" else ret tt);;
        print "";;
        ret (Next tt)
    end
  else
    (* [parent_commit_json] is unbound at line 341 *)
    raise NameError.

Definition show_commit_diff (commit_hash : string) : M unit :=
  commit_data ← get_commit_data (Some commit_hash);
  match commit_data with
  | None => print "Commit not found"
  | Some text =>
      commit_json ← loads text;
      if negb (truthy (parent commit_json)) then print "First commit"
      else
        print "Changes from the last commit: ";;
        for_each (files commit_json) (show_file_diff commit_json) tt;;
        ret tt
  end.

(** The three scans with which [add] and [status] start: the staged, the
    tracked, the tracked-with-changes and the untracked files. *)
Definition classify
    : M (gset string * gset string * gset string * gset string) :=
  staged_files ← get_staged_files;
  '(tracked_files, tracked_files_with_changes) ←
    get_tracked_files staged_files;
  untracked_files ← get_untracked_files staged_files tracked_files;
  ret (staged_files, tracked_files, tracked_files_with_changes,
       untracked_files).

(** The dispatch of [main] once the repository has been found. *)
Definition main (now : string) (fuel : nat) (a : args) : M unit :=
  match a with
  | Add paths => add paths
  | Restore true paths => unstage paths
  | Restore false paths => restore paths
  | Status => status
  | Commit msg => commit now msg
  | Log => log fuel
  | ShowDiff commit_hash => show_commit_diff commit_hash
  end.

End VCS.

(** ** Functions used in the statements *)

(** What [get_current_head] reads from the HEAD file. *)
Definition current_head (st : repo) : option string :=
  if String.eqb (strip (HEAD st)) "" then None else Some (strip (HEAD st)).

(** No character of [s] is one that [str.strip()] removes. *)
Fixpoint no_whitespace (s : string) : bool :=
  match s with
  | "" => true
  | String c rest => negb (is_whitespace c) && no_whitespace rest
  end.

(** The state after one more [print]. *)
Definition printed (line : string) (st : repo) : repo :=
  set_stdout (λ out, out ++ [line]) st.

(** The text on disk of the staged path [p] no longer has the digest the
    index holds for it. *)
Definition stale (st : repo) (p : string) : Prop :=
  ∃ content staged_hash,
    worktree st !! p = Some content
    ∧ dict_get p (index st) = Some staged_hash
    ∧ generate_hash content ≠ staged_hash.

(** The state after the lines [lines] have been printed. *)
Definition printed_all (lines : list string) (st : repo) : repo :=
  set_stdout (λ out, out ++ lines) st.

(** The text [log] prints for one commit. *)
Definition log_entry (head formatted_date msg : string) : string :=
  "Commit:" +:+ TAB +:+ head +:+ NL +:+ "Date:" +:+ TAB +:+ formatted_date
  +:+ NL +:+ NL +:+ TAB +:+ msg +:+ NL.

(** How a chain of parent fields ends: at a commit without parent, or at a
    digest under which the object store holds nothing. *)
Inductive ending : Type :=
  | AtRoot
  | Missing (digest : string).

(** [history objs head entries e]: following the parent fields from [head]
    in the object store [objs] meets the commits whose log entries are
    [entries], in this order, and ends as [e] says. *)
Inductive history `{PyLib} (objs : gmap string string)
    : option string → list string → ending → Prop :=
  | history_root head :
      truthy head = false → history objs head [] AtRoot
  | history_missing h :
      truthy (Some h) = true → objs !! h = None →
      history objs (Some h) [] (Missing h)
  | history_commit h text c date entries e :
      truthy (Some h) = true → objs !! h = Some text →
      json_loads text = Some c → format_date (timestamp c) = Some date →
      history objs (parent c) entries e →
      history objs (Some h) (log_entry h date (message c) :: entries) e.

(** The text [show_commit_diff] prints for one line of a diff. *)
Definition render_diff_line (line : string) : string :=
  match line with
  | String c rest =>
      if Ascii.eqb c "+" then
        ESC +:+ "[92m+" +:+ String c "" +:+ " " +:+ rest +:+ ESC +:+ "[0m"
      else if Ascii.eqb c "-" then
        ESC +:+ "[91m-" +:+ String c "" +:+ " " +:+ rest +:+ ESC +:+ "[0m"
      else ESC +:+ "[90m" +:+ line +:+ ESC +:+ "[0m"
  | "" => ESC +:+ "[90m" +:+ ESC +:+ "[0m"
  end.

(** The lines [show_commit_diff] prints for one file of a commit, given the
    object store and the files of the parent commit: the coloured diff
    against the parent's text when the parent has the file, the note that
    the file is new when it has not. *)
Definition file_report `{PyLib} (objs : gmap string string)
    (parent_files : dict) (entry : string * string) : list string :=
  ["File: " +:+ entry.1]
  ++ match dict_get entry.1 parent_files with
     | Some parent_hash =>
         render_diff_line
           <$> unified_diff (default "" (objs !! parent_hash))
                            (default "" (objs !! entry.2))
     | None => ["New file in this commit"]
     end
  ++ [""].

(** A computation that leaves the state as it found it, however it ends. *)
Definition read_only {A} (m : M A) : Prop :=
  ∀ st, final_state (m st) = st.

(** ** Scenarios

    Concrete repositories for the examples: they are built by running the
    commands above from a freshly initialised repository, with the edits a
    user makes to the working tree in between. *)

Module Scenario.

(** The repository [init] leaves in a directory that holds the files [wt]. *)
Definition init_repo (dir : string) (wt : gmap string string) : repo :=
  mkRepo dir wt ∅ [] "" [].

(** The user writes [text] to the file [path]. *)
Definition edit (path text : string) (st : repo) : repo :=
  set_worktree <[path := text]> st.

(** An object file is lost. *)
Definition lose_object (name : string) (st : repo) : repo :=
  set_objects (delete name) st.

Definition clear_stdout (st : repo) : repo := set_stdout (λ _, []) st.

Definition day1 : string := "2024-01-01T10:00:00".
Definition day2 : string := "2024-01-02T11:30:00".

Definition first_commit : commit_json :=
  mkCommit day1 "first" [("a.txt", generate_hash "hello")] None.

Definition second_commit : commit_json :=
  mkCommit day2 "second"
    [("a.txt", generate_hash "hello world"); ("b.txt", generate_hash "bye")]
    (Some (generate_hash (json_dumps first_commit))).

Definition empty_commit : commit_json := mkCommit day1 "empty" [] None.

(** The library on the calls the scenarios make: the texts of the commits
    above decode to them, the two dates are formatted as [strftime] does,
    and the one diff is the one [difflib] gives. *)
Definition lib : PyLib := {|
  json_loads text :=
    List.find (λ c, bool_decide (json_dumps c = text))
              [first_commit; second_commit; empty_commit];
  format_date ts :=
    if decide (ts = day1) then Some "01 Jan 2024  10:00:00 "
    else if decide (ts = day2) then Some "02 Jan 2024  11:30:00 "
    else None;
  unified_diff old new :=
    if decide (old = "hello" ∧ new = "hello world") then
      ["--- "; "+++ "; "@@ -1 +1 @@"; "-hello"; "+hello world"]
    else []
|}.

Definition dir : string := "/home/user/project".
Definition run (now : string) (a : args) (st : repo) : repo :=
  final_state (@main lib now 8 a st).

(** A new repository with one file. *)
Definition fresh : repo := init_repo dir {[ "a.txt" := "hello" ]}.

(** [a.txt] is staged. *)
Definition staged_a : repo := run day1 (Add ["a.txt"]) fresh.

(** [a.txt] is staged, then edited. *)
Definition drifted : repo := edit "a.txt" "hello world" staged_a.

(** [a.txt] is committed. *)
Definition committed : repo := run day1 (Commit "first") staged_a.

(** [a.txt] is edited and [b.txt] created, both are staged and committed. *)
Definition two_commits : repo :=
  run day2 (Commit "second")
    (run day2 (Add ["a.txt"; "b.txt"])
       (edit "b.txt" "bye" (edit "a.txt" "hello world" committed))).

(** The first commit object is lost. *)
Definition corrupt : repo :=
  lose_object (generate_hash (json_dumps first_commit)) two_commits.

(** A file in a subdirectory whose name exists nowhere else. *)
Definition nested : repo := init_repo dir {[ "sub/b.txt" := "hello" ]}.

(** Two files of the same name, the top-level one staged. *)
Definition same_name : repo :=
  run day1 (Add ["a.txt"])
    (init_repo dir {[ "a.txt" := "hello"; "sub/a.txt" := "hello world" ]}).

(** After the first commit, [b.txt] is created, staged and edited. *)
Definition drifted_after_commit : repo :=
  edit "b.txt" "bye!" (run day2 (Add ["b.txt"]) (edit "b.txt" "bye" committed)).

(** [a.txt] is staged and then unstaged: its text stays in the store. *)
Definition unstaged_a : repo := run day1 (Restore true ["a.txt"]) staged_a.

End Scenario.

(** ** Predicates on states that a computation keeps *)

(** [m] keeps [P]: from a state where [P] holds it ends, however it ends,
    in a state where [P] holds. *)
Definition preserves {A} (P : repo → Prop) (m : M A) : Prop :=
  ∀ st, P st → P (final_state (m st)).

(** [P] survives each of the five ways in which the methods change the
    state: a [print], a write of the index file, a write of a file of the
    working tree, a write of a text under its own digest in the object
    directory, a write of the HEAD file. *)
Definition stable_print (P : repo → Prop) : Prop :=
  ∀ line st, P st → P (printed line st).
Definition stable_index (P : repo → Prop) : Prop :=
  ∀ d st, P st → P (set_index d st).
Definition stable_worktree (P : repo → Prop) : Prop :=
  ∀ path text st, P st → P (set_worktree <[path := text]> st).
Definition stable_store (P : repo → Prop) : Prop :=
  ∀ text st, P st → P (set_objects <[generate_hash text := text]> st).
Definition stable_head (P : repo → Prop) : Prop :=
  ∀ h st, P st → P (set_HEAD h st).

(** Every object is stored under the digest of its text. *)
Definition store_ok (st : repo) : Prop :=
  ∀ name text, objects st !! name = Some text → generate_hash text = name.

(** ** [init] and [find_repo_dir]

    [init] runs before the control directory exists, so that its state
    is a directory in which the object directory, the index file and the
    HEAD file may each be absent. *)

Record disk : Type := mkDisk {
  disk_directory : string;
  disk_worktree : gmap string string;
  disk_objects : option (gmap string string);  (* [.gitto/objects] *)
  disk_index : option dict;                    (* [.gitto/index] *)
  disk_HEAD : option string;                   (* [.gitto/HEAD] *)
  disk_stdout : list string
}.

(** [VCS.init]: [os.makedirs] raises [OSError] when the object directory
    exists; otherwise the directory is made, and the HEAD file and the
    index file are created when they are absent. *)
Definition init (d : disk) : disk :=
  match disk_objects d with
  | Some _ =>
      mkDisk (disk_directory d) (disk_worktree d) (disk_objects d)
             (disk_index d) (disk_HEAD d)
             (disk_stdout d
              ++ ["Gitto repository already initialized in "
                  +:+ disk_directory d])
  | None =>
      mkDisk (disk_directory d) (disk_worktree d) (Some ∅)
             (match disk_index d with
              | Some index => Some index
              | None => Some []
              end)
             (match disk_HEAD d with
              | Some head => Some head
              | None => Some ""
              end)
             (disk_stdout d
              ++ ["Initialized empty Gitto repository in "
                  +:+ disk_directory d])
  end.

(** The repository the other methods work on, once the three parts of the
    control directory exist. *)
Definition mount (d : disk) : option repo :=
  match disk_objects d, disk_index d, disk_HEAD d with
  | Some objs, Some index, Some head =>
      Some (mkRepo (disk_directory d) (disk_worktree d) objs index head
                   (disk_stdout d))
  | _, _, _ => None
  end.

(** [find_repo_dir].  An absolute path is the list of its components, the
    root is the empty list, and [has_gitto p] tells whether the directory
    [p] holds an entry [.gitto].  The loop goes from the working directory
    towards the root and stops, without a test, when it reaches the root.
    The path is handled innermost component first. *)
Fixpoint find_repo_dir_from (has_gitto : list string → bool)
    (current_path : list string) : option (list string) :=
  match current_path with
  | [] => None
  | _ :: parent =>
      if has_gitto (rev current_path) then Some (rev current_path)
      else find_repo_dir_from has_gitto parent
  end.

Definition find_repo_dir (has_gitto : list string → bool)
    (cwd : list string) : option (list string) :=
  find_repo_dir_from has_gitto (rev cwd).

(** The file-set of the commit HEAD names: empty when HEAD is empty, when
    the object is missing or empty, or when its text is not that of a
    commit. *)
Definition latest_files `{PyLib} (st : repo) : dict :=
  match current_head st with
  | Some h =>
      match objects st !! h with
      | Some text =>
          if truthy (Some text) then
            match json_loads text with
            | Some c => files c
            | None => []
            end
          else []
      | None => []
      end
  | None => []
  end.

(** The lines [status] prints for the three sets it reports. *)
Definition status_section (title colour : string) (tail : list string)
    (paths : gset string) : list string :=
  if decide (paths ≠ ∅) then
    title
    :: ((λ file, ESC +:+ colour +:+ TAB +:+ file +:+ ESC +:+ "[0m")
          <$> elements paths)
    ++ tail
  else [].

Definition status_lines (staged changed untracked : gset string)
    : list string :=
  if decide (staged = ∅ ∧ changed = ∅ ∧ untracked = ∅) then
    ["nothing to commit, working tree clean"]
  else
    status_section "Changes to be committed:" "[92m" [""] staged
    ++ status_section "Changes not staged for commit:" "[91m" [""] changed
    ++ status_section "Untracked files:" "[91m" [] untracked.

(** ** Further scenarios *)

Module Cases.

(** A repository whose absolute path holds the text [.gitto] in the name
    of a directory above it. *)
Definition hidden : repo :=
  mkRepo "/home/user/.gitto-backup/project" {[ "a.txt" := "hello" ]} ∅ [] "" [].

(** The committed file [a.txt] is deleted from the working tree. *)
Definition deleted : repo :=
  set_worktree (delete "a.txt") Scenario.committed.

(** After the first commit, [a.txt] is edited. *)
Definition edited : repo := Scenario.edit "a.txt" "hello world" Scenario.committed.

(** The second commit is shown after the first commit object is lost. *)
Definition second_hash : string := HEAD Scenario.two_commits.

(** After the first commit, [a.txt] is edited and [b.txt] is created. *)
Definition two_pending : repo :=
  Scenario.edit "b.txt" "bye" (Scenario.edit "a.txt" "hello world" Scenario.committed).

(** Two files with the same text. *)
Definition twins : repo :=
  Scenario.init_repo Scenario.dir {[ "a.txt" := "hello"; "copy.txt" := "hello" ]}.

Definition day3 : string := "2024-01-03T09:00:00".

(** A commit made right after the first one, with nothing staged. *)
Definition again_commit : commit_json :=
  mkCommit day3 "again" []
           (Some (generate_hash (json_dumps Scenario.first_commit))).

(** The library of the scenarios, which decodes also this commit. *)
Definition lib : PyLib := {|
  json_loads text :=
    if decide (text = json_dumps again_commit) then Some again_commit
    else @json_loads Scenario.lib text;
  format_date ts :=
    if decide (ts = day3) then Some "03 Jan 2024  09:00:00 "
    else @format_date Scenario.lib ts;
  unified_diff := @unified_diff Scenario.lib
|}.

End Cases.

(** * Properties *)

#[global] Arguments generate_hash : simpl never.
#[global] Arguments json_dumps : simpl never.
#[global] Arguments strip : simpl never.
#[global] Arguments contains : simpl never.

(** ** The digest on the standard test vectors *)

Example sha1_empty :
  generate_hash "" = "da39a3ee5e6b4b0d3255bfef95601890afd80709".
Proof. vm_compute. reflexivity. Qed.

Example sha1_abc :
  generate_hash "abc" = "a9993e364706816aba3e25717850c26c9cd0d89d".
Proof. vm_compute. reflexivity. Qed.

Example sha1_two_blocks :
  generate_hash "abcdbcdecdefdefgefghfghighijhijkijkljklmklmnlmnomnopnopq"
  = "84983e441c3bd26ebaae4aa1f95129e5e54670f1".
Proof. vm_compute. reflexivity. Qed.

(** The text of the first commit of the scenarios is the text
    [json.dumps] gives, and its digest the one [hashlib] gives. *)
Example json_dumps_first_commit :
  json_dumps Scenario.first_commit
  = "{" +:+ Json.DQ +:+ "timestamp" +:+ Json.DQ +:+ ": " +:+ Json.DQ
    +:+ "2024-01-01T10:00:00" +:+ Json.DQ +:+ ", " +:+ Json.DQ +:+ "message"
    +:+ Json.DQ +:+ ": " +:+ Json.DQ +:+ "first" +:+ Json.DQ +:+ ", "
    +:+ Json.DQ +:+ "files" +:+ Json.DQ +:+ ": {" +:+ Json.DQ +:+ "a.txt"
    +:+ Json.DQ +:+ ": " +:+ Json.DQ
    +:+ "aaf4c61ddcc5e8a2dabede0f3b482cd9aea9434d" +:+ Json.DQ +:+ "}, "
    +:+ Json.DQ +:+ "parent" +:+ Json.DQ +:+ ": null}"
  ∧ generate_hash (json_dumps Scenario.first_commit)
    = "3d6abe0ab98be9731c93d261ac3371df127aaa2c".
Proof. split; vm_compute; reflexivity. Qed.

(** ** Dictionaries *)

Lemma dict_get_set_eq k v d : dict_get k (dict_set k v d) = Some v.
Proof.
  induction d as [|[k' v'] d IH]; simpl.
  - by rewrite decide_True.
  - destruct (decide (k = k')) as [->|Hne]; simpl.
    + by rewrite decide_True.
    + by rewrite decide_False.
Qed.

Lemma dict_get_set_ne k k' v d :
  k ≠ k' → dict_get k' (dict_set k v d) = dict_get k' d.
Proof.
  intros Hne. induction d as [|[k0 v0] d IH]; simpl.
  - by rewrite decide_False.
  - destruct (decide (k = k0)) as [->|Hne0]; simpl.
    + by rewrite !decide_False.
    + destruct (decide (k' = k0)); done.
Qed.

Lemma dict_set_idemp k v d : dict_set k v (dict_set k v d) = dict_set k v d.
Proof.
  induction d as [|[k' v'] d IH]; simpl.
  - by rewrite decide_True.
  - destruct (decide (k = k')) as [->|Hne]; simpl.
    + by rewrite decide_True.
    + rewrite decide_False by done. by rewrite IH.
Qed.

Lemma dict_get_del_eq k d : dict_get k (dict_del k d) = None.
Proof.
  unfold dict_del. induction d as [|[k' v'] d IH]; [done|].
  rewrite filter_cons. simpl. destruct (decide (k' ≠ k)) as [Hne|Heq].
  - simpl. rewrite decide_False by done. exact IH.
  - exact IH.
Qed.

Lemma dict_get_del_ne k k' d :
  k ≠ k' → dict_get k' (dict_del k d) = dict_get k' d.
Proof.
  intros Hne. unfold dict_del. induction d as [|[k0 v0] d IH]; [done|].
  rewrite filter_cons. simpl. destruct (decide (k0 ≠ k)) as [Hne0|Heq].
  - simpl. by rewrite IH.
  - apply dec_stable in Heq as ->. rewrite decide_False by done. exact IH.
Qed.

Lemma dict_get_Some_keys k v d : dict_get k d = Some v → k ∈ dict_keys d.
Proof.
  unfold dict_keys. induction d as [|[k' v'] d IH]; simpl; [done|].
  destruct (decide (k = k')) as [->|Hne]; intros Hget.
  - apply list_elem_of_here.
  - apply list_elem_of_further. auto.
Qed.

Lemma dict_get_None_keys k d : dict_get k d = None ↔ k ∉ dict_keys d.
Proof.
  unfold dict_keys. induction d as [|[k' v'] d IH]; simpl.
  - split; [intros _; apply not_elem_of_nil | done].
  - rewrite not_elem_of_cons.
    destruct (decide (k = k')) as [->|Hne]; [naive_solver|].
    rewrite IH. naive_solver.
Qed.

Lemma dict_mem_true k d : dict_mem k d = true ↔ k ∈ dict_keys d.
Proof.
  unfold dict_mem. rewrite bool_decide_eq_true. split.
  - intros [v Hv]. by eapply dict_get_Some_keys.
  - intros Hin. destruct (dict_get k d) eqn:E; [by eexists|].
    by apply dict_get_None_keys in E.
Qed.

(** ** The monad *)

Lemma bind_Returned {A B} (m : M A) (k : A → M B) st a st' :
  m st = Returned a st' → bind m k st = k a st'.
Proof. unfold bind. by intros ->. Qed.

Lemma bind_Raised {A B} (m : M A) (k : A → M B) st e st' :
  m st = Raised e st' → bind m k st = Raised e st'.
Proof. unfold bind. by intros ->. Qed.

Lemma bind_inv_Returned {A B} (m : M A) (k : A → M B) st b st2 :
  bind m k st = Returned b st2 →
  ∃ a st1, m st = Returned a st1 ∧ k a st1 = Returned b st2.
Proof. unfold bind. destruct (m st); naive_solver. Qed.

(** ** Digests are words of hexadecimal digits *)

Lemma no_whitespace_app s1 s2 :
  no_whitespace (s1 +:+ s2) = no_whitespace s1 && no_whitespace s2.
Proof.
  induction s1 as [|c s1 IH]; simpl; [done|].
  by rewrite IH, andb_assoc.
Qed.

Lemma no_whitespace_rev_app s1 s2 :
  no_whitespace (String.rev_app s1 s2) = no_whitespace s1 && no_whitespace s2.
Proof.
  revert s2. induction s1 as [|c s1 IH]; intros s2; simpl; [done|].
  rewrite IH. simpl. destruct (is_whitespace c), (no_whitespace s1); done.
Qed.

Lemma rev_app_rev_app s1 s2 s3 :
  String.rev_app (String.rev_app s1 s2) s3 = String.rev_app s2 (s1 +:+ s3).
Proof.
  revert s2. induction s1 as [|c s1 IH]; intros s2; simpl; [done|].
  by rewrite IH.
Qed.

Lemma string_app_empty_r s : s +:+ "" = s.
Proof.
  induction s as [|c s IH]; [done|].
  change (String c (s +:+ "") = String c s). by f_equal.
Qed.

Lemma string_rev_involutive s : String.rev (String.rev s) = s.
Proof.
  unfold String.rev. rewrite rev_app_rev_app. cbn [String.rev_app].
  apply string_app_empty_r.
Qed.

Lemma lstrip_no_whitespace s : no_whitespace s = true → lstrip s = s.
Proof.
  destruct s as [|c s]; simpl; [done|]. by destruct (is_whitespace c).
Qed.

Lemma strip_no_whitespace s : no_whitespace s = true → strip s = s.
Proof.
  intros Hs. unfold strip. rewrite (lstrip_no_whitespace s Hs).
  rewrite lstrip_no_whitespace.
  - apply string_rev_involutive.
  - unfold String.rev. by rewrite no_whitespace_rev_app, Hs.
Qed.

Lemma hex_digit_no_whitespace x :
  is_whitespace (Sha1.hex_digit (Z.land x 0xF)) = false.
Proof.
  change 0xF%Z with (Z.ones 4). rewrite Z.land_ones by lia.
  pose proof (Z.mod_pos_bound x (2 ^ 4) ltac:(lia)) as Hbound.
  remember (x mod 2 ^ 4)%Z as v eqn:Hv. clear Hv.
  assert (v = 0 ∨ v = 1 ∨ v = 2 ∨ v = 3 ∨ v = 4 ∨ v = 5 ∨ v = 6 ∨ v = 7
          ∨ v = 8 ∨ v = 9 ∨ v = 10 ∨ v = 11 ∨ v = 12 ∨ v = 13 ∨ v = 14
          ∨ v = 15)%Z as Hcases by lia.
  repeat (destruct Hcases as [->|Hcases]; [reflexivity|]).
  by subst.
Qed.

Lemma hex_no_whitespace n x : no_whitespace (Sha1.hex n x) = true.
Proof.
  revert x. induction n as [|n IH]; intros x; simpl; [done|].
  rewrite no_whitespace_app, IH. simpl.
  by rewrite hex_digit_no_whitespace.
Qed.

Lemma hex_not_empty n x : Sha1.hex (S n) x ≠ "".
Proof.
  simpl. destruct (Sha1.hex n (Z.shiftr x 4)); discriminate.
Qed.

(** The digest has no white space and is not empty, so that a HEAD file
    that holds a digest is read back as that digest. *)
Lemma generate_hash_no_whitespace content :
  no_whitespace (generate_hash content) = true ∧ generate_hash content ≠ "".
Proof.
  unfold generate_hash, Sha1.hexdigest.
  destruct (fold_left _ _ _) as [[[[h0 h1] h2] h3] h4].
  split.
  - by rewrite !no_whitespace_app, !hex_no_whitespace.
  - pose proof (hex_not_empty 7 h0) as Hne.
    destruct (Sha1.hex 8 h0) as [|c s]; [done|]. discriminate.
Qed.

Lemma current_head_digest st content :
  HEAD st = generate_hash content →
  current_head st = Some (generate_hash content).
Proof.
  intros Hhead. unfold current_head. rewrite Hhead.
  destruct (generate_hash_no_whitespace content) as [Hws Hne].
  rewrite (strip_no_whitespace _ Hws).
  destruct (String.eqb_spec (generate_hash content) ""); done.
Qed.

Lemma get_current_head_spec st :
  get_current_head st = Returned (current_head st) st.
Proof.
  unfold get_current_head, current_head, bind, gets.
  by destruct (String.eqb (strip (HEAD st)) "").
Qed.

(** ** Commit *)

(** What a call of [commit] does, whatever the index holds. *)
Lemma commit_spec now msg st :
  let c := mkCommit now msg (index st) (current_head st) in
  let h := generate_hash (json_dumps c) in
  commit now msg st
  = Returned tt
      (mkRepo (directory st) (worktree st)
              (<[h := json_dumps c]> (objects st)) [] h
              (stdout st
               ++ ["Commit successfully created with commit hash: " +:+ h])).
Proof.
  unfold commit, file_object_truthy. simpl.
  unfold bind at 1. unfold load_index, gets at 1.
  rewrite (bind_Returned _ _ _ _ _ (get_current_head_spec st)).
  reflexivity.
Qed.

(** C1, at a failing input: in a repository whose index is empty and whose
    HEAD is empty, [commit] prints no refusal; it writes a commit object
    with an empty file-set into the empty object store and moves HEAD to
    it. *)
Theorem commit_on_empty_index_creates_commit :
  let st := Scenario.init_repo Scenario.dir ∅ in
  let h := "1a2d577d0e84dbb7e678d0cfa5195c9b88ded74e" in
  index st = [] ∧ HEAD st = "" ∧ objects st = ∅
  ∧ ∃ st', commit Scenario.day1 "empty" st = Returned tt st'
      ∧ HEAD st' = h
      ∧ objects st' !! h = Some (json_dumps Scenario.empty_commit)
      ∧ stdout st'
        = ["Commit successfully created with commit hash: " +:+ h].
Proof.
  simpl. split_and!; try reflexivity.
  eexists. rewrite commit_spec. split; [reflexivity|].
  split_and!; vm_compute; reflexivity.
Qed.

(** C5: a call of [commit] returns; afterwards the index is empty, the
    HEAD file holds the digest of the JSON text of the new commit record,
    [get_current_head] reads that digest back, and the object store holds
    the text of the record under it. *)
Theorem commit_clears_index_and_moves_head now msg st :
  let c := mkCommit now msg (index st) (current_head st) in
  ∃ st', commit now msg st = Returned tt st'
    ∧ index st' = []
    ∧ HEAD st' = generate_hash (json_dumps c)
    ∧ get_current_head st' = Returned (Some (generate_hash (json_dumps c))) st'
    ∧ objects st' !! HEAD st' = Some (json_dumps c).
Proof.
  intros c. eexists. rewrite commit_spec. split; [reflexivity|].
  simpl. split_and!; try reflexivity.
  - rewrite get_current_head_spec. f_equal. by apply current_head_digest.
  - apply lookup_insert_eq.
Qed.

(** ** The object store *)

Lemma add_file_spec st path text :
  worktree st !! path = Some text →
  add_file path st
  = Returned tt
      (mkRepo (directory st) (worktree st)
              (<[generate_hash text := text]> (objects st))
              (dict_set path (generate_hash text) (index st)) (HEAD st)
              (stdout st ++ ["'" +:+ path +:+ "' added to staging area"])).
Proof.
  intros Hfile. unfold add_file, bind, read_file. rewrite Hfile. reflexivity.
Qed.

(** C6: when [add_file] stores the text [C] of a file, reading the object
    named by the digest of [C] returns [C]; storing the same text again
    changes neither the object store nor the index. *)
Theorem object_store_round_trip st path C :
  worktree st !! path = Some C →
  ∃ st1, add_file path st = Returned tt st1
    ∧ get_file_content (generate_hash C) st1 = Returned C st1
    ∧ write_object (generate_hash C) C st1 = Returned tt st1
    ∧ ∃ st2, add_file path st1 = Returned tt st2
        ∧ objects st2 = objects st1 ∧ index st2 = index st1
        ∧ worktree st2 = worktree st1 ∧ HEAD st2 = HEAD st1.
Proof.
  intros Hfile. eexists. split; [by apply add_file_spec|].
  split_and!.
  - unfold get_file_content. simpl. by rewrite lookup_insert_eq.
  - unfold write_object, modify, set_objects. simpl.
    by rewrite insert_insert_eq.
  - eexists. split; [by apply add_file_spec|]. simpl.
    rewrite insert_insert_eq, dict_set_idemp. done.
Qed.

Lemma object_store_round_trip_witness :
  ∃ st1, add_file "a.txt" Scenario.fresh = Returned tt st1
    ∧ get_file_content (generate_hash "hello") st1 = Returned "hello" st1
    ∧ write_object (generate_hash "hello") "hello" st1 = Returned tt st1
    ∧ ∃ st2, add_file "a.txt" st1 = Returned tt st2
        ∧ objects st2 = objects st1 ∧ index st2 = index st1
        ∧ worktree st2 = worktree st1 ∧ HEAD st2 = HEAD st1.
Proof.
  apply (object_store_round_trip Scenario.fresh "a.txt" "hello").
  vm_compute. reflexivity.
Defined.

(** ** The index *)

Lemma append_to_staging_area_spec path digest st :
  append_to_staging_area path digest st
  = Returned tt (set_index (dict_set path digest (index st)) st).
Proof. reflexivity. Qed.

Lemma unstage_file_spec path st :
  unstage_file path st
  = if dict_mem path (index st)
    then Returned tt (printed ("'" +:+ path +:+ "' unstaged")
                        (set_index (dict_del path (index st)) st))
    else Returned tt
           (printed ("'" +:+ path +:+ "' is not in the staging area") st).
Proof.
  unfold unstage_file, bind, load_index, gets.
  by destruct (dict_mem path (index st)).
Qed.


(** ** Computations that only read *)

Lemma read_only_Returned {A} (m : M A) st a st' :
  read_only m → m st = Returned a st' → st' = st.
Proof. intros Hro Hm. specialize (Hro st). by rewrite Hm in Hro. Qed.

Lemma read_only_ret {A} (a : A) : read_only (ret a).
Proof. done. Qed.

Lemma read_only_raise {A} e : read_only (@raise A e).
Proof. done. Qed.

Lemma read_only_gets {A} (f : repo → A) : read_only (gets f).
Proof. done. Qed.

Lemma read_only_bind {A B} (m : M A) (k : A → M B) :
  read_only m → (∀ a, read_only (k a)) → read_only (bind m k).
Proof.
  intros Hm Hk st. unfold bind. specialize (Hm st).
  destruct (m st) as [a st'| |]; simpl in *; subst; try done. apply Hk.
Qed.

Lemma read_only_for_ {A S} (l : list A) (body : A → S → M S) s :
  (∀ x s, read_only (body x s)) → read_only (for_ l body s).
Proof.
  intros Hbody. revert s. induction l as [|x l IH]; intros s; simpl.
  - apply read_only_ret.
  - apply read_only_bind; auto.
Qed.

Lemma read_only_read_file path : read_only (read_file path).
Proof. intros st. unfold read_file. by destruct (worktree st !! path). Qed.

Lemma read_only_get_file_content name : read_only (get_file_content name).
Proof. intros st. unfold get_file_content. by destruct (objects st !! name). Qed.

Ltac read_only_step :=
  first
    [ apply read_only_ret | apply read_only_raise | apply read_only_gets
    | apply read_only_read_file | apply read_only_get_file_content
    | apply read_only_bind | apply read_only_for_
    | match goal with
      | |- read_only (match ?x with _ => _ end) => destruct x
      | |- read_only ((match ?x with _ => _ end) _) => destruct x
      end ].

Ltac read_only_tac := repeat (intros; read_only_step).

Section ReadOnly.
Context `{PyLib}.

Lemma read_only_loads text : read_only (loads text).
Proof. unfold loads. read_only_tac. Qed.

Lemma read_only_get_current_head : read_only get_current_head.
Proof. unfold get_current_head. read_only_tac. Qed.

Lemma read_only_get_commit_data h : read_only (get_commit_data h).
Proof. unfold get_commit_data. read_only_tac. Qed.

Lemma read_only_get_staged_files : read_only get_staged_files.
Proof. unfold get_staged_files, load_index. read_only_tac. Qed.

Lemma read_only_scan_committed_file staged entry sets :
  read_only (scan_committed_file staged entry sets).
Proof. unfold scan_committed_file. read_only_tac. Qed.

Lemma read_only_scan_staged_file tracked index p changed :
  read_only (scan_staged_file tracked index p changed).
Proof. unfold scan_staged_file. read_only_tac. Qed.

Lemma read_only_scan_committed staged : read_only (scan_committed staged).
Proof.
  unfold scan_committed.
  pose proof read_only_get_current_head. pose proof read_only_get_commit_data.
  pose proof read_only_loads. pose proof read_only_scan_committed_file.
  repeat (intros; first [done | read_only_step]).
Qed.

Lemma read_only_get_tracked_files staged :
  read_only (get_tracked_files staged).
Proof.
  unfold get_tracked_files, load_index.
  pose proof read_only_scan_committed.
  pose proof read_only_scan_staged_file.
  repeat (intros; first [done | read_only_step]).
Qed.

Lemma read_only_get_untracked_files staged tracked :
  read_only (get_untracked_files staged tracked).
Proof.
  unfold get_untracked_files, scan_walked_dir, scan_walked_file, relpath,
    object_exists.
  read_only_tac.
Qed.

Lemma read_only_classify : read_only classify.
Proof.
  unfold classify.
  pose proof read_only_get_staged_files.
  pose proof read_only_get_tracked_files.
  pose proof read_only_get_untracked_files.
  repeat (intros; first [done | read_only_step]).
Qed.

End ReadOnly.

(** ** Loops *)

Lemma for_invariant {A S} (I : S → Prop) (l : list A) (body : A → S → M S) :
  (∀ x s st s' st', x ∈ l → I s → body x s st = Returned s' st' → I s') →
  ∀ s st s' st', I s → for_ l body s st = Returned s' st' → I s'.
Proof.
  induction l as [|x l IH]; intros Hbody s st s' st' Hs Hrun; simpl in Hrun.
  - by inversion Hrun; subst.
  - apply bind_inv_Returned in Hrun as (s1 & st1 & Hx & Hrest).
    eapply IH; [| |exact Hrest].
    + intros y ? ? ? ? Hy. apply Hbody. by apply list_elem_of_further.
    + eapply Hbody; [apply list_elem_of_here|exact Hs|exact Hx].
Qed.

Tactic Notation "inv_bind" hyp(H) "as" simple_intropattern(a)
    simple_intropattern(st) ident(H1) :=
  apply bind_inv_Returned in H as (a & st & H1 & H).

Ltac inv_ret H :=
  unfold ret in H; inversion H; subst; clear H.

(** ** The scanner *)

Section Scanner.
Context `{PyLib}.

Lemma get_staged_files_spec st :
  get_staged_files st = Returned (list_to_set (dict_keys (index st))) st.
Proof.
  unfold get_staged_files, load_index. unfold bind at 1, gets.
  assert (∀ (l : list string) (s : gset string),
            for_ l (λ file_path staged_files,
                      ret (({[file_path]} : gset string) ∪ staged_files))
                 s st
            = Returned (list_to_set l ∪ s) st) as Hloop.
  { induction l as [|x l IH]; intros s; simpl.
    - unfold ret. f_equal. set_solver.
    - unfold bind, ret at 1. rewrite IH. f_equal. set_solver. }
  rewrite Hloop. f_equal. set_solver.
Qed.

(** The loop over the committed files keeps the tracked files apart from
    the staged ones, and marks only tracked files as changed. *)
Lemma scan_committed_classes staged st tracked changed st' :
  scan_committed staged st = Returned (tracked, changed) st' →
  tracked ## staged ∧ changed ⊆ tracked.
Proof.
  unfold scan_committed. intros Hrun.
  inv_bind Hrun as head st1 Hhead.
  destruct (truthy head); [|inv_ret Hrun; set_solver].
  inv_bind Hrun as text st2 Htext.
  destruct (truthy text); [|inv_ret Hrun; set_solver].
  inv_bind Hrun as cj st3 Hcj.
  apply (for_invariant (λ sets, sets.1 ## staged ∧ sets.2 ⊆ sets.1))
    in Hrun; [exact Hrun| |simpl; set_solver].
  clear. intros [file file_hash] [t c] st [t' c'] st' _ [Hdisj Hsub] Hbody.
  unfold scan_committed_file in Hbody. simpl in *.
  destruct (decide (file ∈ staged)).
  - inv_ret Hbody. done.
  - inv_bind Hbody as content st1 Hread. inv_ret Hbody. simpl.
    destruct (decide _); set_solver.
Qed.

(** The loop over the staged files adds the staged paths that are not
    tracked and whose text has another digest than the staged one. *)
Lemma scan_staged_spec tracked idx l changed0 st changed st' :
  for_ l (scan_staged_file tracked idx) changed0 st = Returned changed st' →
  ∀ p, p ∈ changed ↔
       p ∈ changed0
       ∨ (p ∈ l ∧ (p ∉ tracked)
          ∧ ∃ content staged_hash,
              worktree st !! p = Some content
              ∧ dict_get p idx = Some staged_hash
              ∧ generate_hash content ≠ staged_hash).
Proof.
  revert changed0 st. induction l as [|x l IH]; intros changed0 st Hrun p.
  - simpl in Hrun. inv_ret Hrun. set_solver.
  - simpl in Hrun. inv_bind Hrun as changed1 st1 Hrun0.
    pose proof (read_only_Returned _ _ _ _
                  (read_only_scan_staged_file _ _ _ _) Hrun0) as ->.
    rewrite (IH _ _ Hrun p). clear IH Hrun.
    unfold scan_staged_file in Hrun0.
    destruct (decide (x ∈ tracked)) as [Hx|Hx].
    { inv_ret Hrun0. set_solver. }
    unfold bind, read_file in Hrun0.
    destruct (worktree st !! x) as [content|] eqn:Hfile; [|done].
    destruct (dict_get x idx) as [h|] eqn:Hidx; [|done].
    inv_ret Hrun0. rewrite elem_of_cons.
    assert ((∃ content0 staged_hash,
               worktree st !! x = Some content0
               ∧ dict_get x idx = Some staged_hash
               ∧ generate_hash content0 ≠ staged_hash)
            ↔ generate_hash content ≠ h) as Hx'.
    { split; [|by exists content, h].
      intros (content' & h' & Hc & Hh & Hd). congruence. }
    destruct (decide (generate_hash content ≠ h)) as [Hne|Heq].
    + rewrite elem_of_union, elem_of_singleton. split.
      * intros [[->|?]|(? & ? & ?)]; [|tauto|tauto].
        right. split_and!; [by left|done|]. by apply Hx'.
      * intros [?|([->|?] & ? & ?)]; tauto.
    + split; [tauto|].
      intros [?|([->|?] & ? & Hex)]; tauto.
Qed.

Lemma get_tracked_files_classes staged st tracked changed st' :
  get_tracked_files staged st = Returned (tracked, changed) st' →
  tracked ## staged
  ∧ changed ⊆ tracked ∪ staged
  ∧ ∀ p, p ∈ staged → (p ∈ changed ↔ stale st p).
Proof.
  unfold get_tracked_files. intros Hrun.
  inv_bind Hrun as [t c0] st1 Hcommitted.
  pose proof (read_only_Returned _ _ _ _ (read_only_scan_committed _)
                Hcommitted) as ->.
  apply scan_committed_classes in Hcommitted as [Hdisj Hsub].
  inv_bind Hrun as idx st2 Hidx. unfold load_index, gets in Hidx.
  inv_ret Hidx.
  inv_bind Hrun as c st3 Hstaged. inv_ret Hrun.
  pose proof (scan_staged_spec _ _ _ _ _ _ _ Hstaged) as Hspec.
  split; [done|]. split.
  - intros p Hp. apply Hspec in Hp as [?|(Hin & _)]; [set_solver|].
    apply elem_of_elements in Hin. set_solver.
  - intros p Hp. rewrite Hspec. unfold stale. split.
    + intros [?|(_ & _ & ?)]; [set_solver|done].
    + intros Hstale. right. split_and!; [by apply elem_of_elements|set_solver|done].
Qed.

(** The walk of the working tree marks no staged and no tracked path. *)
Lemma get_untracked_files_classes staged tracked st untracked st' :
  get_untracked_files staged tracked st = Returned untracked st' →
  untracked ## staged ∧ untracked ## tracked.
Proof.
  unfold get_untracked_files. intros Hrun. inv_bind Hrun as walk st1 Hwalk.
  apply (for_invariant (λ u : gset string, u ## staged ∧ u ## tracked))
    in Hrun; [exact Hrun| |set_solver].
  clear. intros [root files] u st u' st' _ Hu Hdir.
  unfold scan_walked_dir in Hdir.
  destruct (contains ".gitto" root); [by inv_ret Hdir|].
  apply (for_invariant (λ u : gset string, u ## staged ∧ u ## tracked))
    in Hdir; [exact Hdir| |exact Hu].
  clear. intros file u st u' st' _ Hu Hfile.
  unfold scan_walked_file in Hfile.
  destruct (decide (file = "gitto.py")); [by inv_ret Hfile|].
  inv_bind Hfile as file_path st1 Hpath.
  destruct (decide _) as [[? ?]|]; [|by inv_ret Hfile].
  inv_bind Hfile as content st2 Hread. inv_bind Hfile as stored st3 Hstored.
  destruct (negb stored); inv_ret Hfile; set_solver.
Qed.

Lemma classify_inv st staged tracked changed untracked st' :
  classify st = Returned (staged, tracked, changed, untracked) st' →
  st' = st
  ∧ get_staged_files st = Returned staged st
  ∧ get_tracked_files staged st = Returned (tracked, changed) st
  ∧ get_untracked_files staged tracked st = Returned untracked st.
Proof.
  intros Hrun.
  pose proof (read_only_Returned _ _ _ _ read_only_classify Hrun) as ->.
  unfold classify in Hrun. inv_bind Hrun as sf st1 Hsf.
  pose proof (read_only_Returned _ _ _ _ read_only_get_staged_files Hsf)
    as ->.
  inv_bind Hrun as [t c] st2 Htf.
  pose proof (read_only_Returned _ _ _ _ (read_only_get_tracked_files _) Htf)
    as ->.
  inv_bind Hrun as u st3 Hu.
  pose proof (read_only_Returned _ _ _ _ (read_only_get_untracked_files _ _)
                Hu) as ->.
  inv_ret Hrun. done.
Qed.

End Scanner.




(** ** Add *)

(** The first loop of [add] leaves the method at the first path, other than
    the token ".", that is in none of the three sets. *)
Lemma check_paths_abort (staged tracked untracked : gset string) paths p :
  p ∈ paths → p ≠ "." → p ∉ staged → p ∉ tracked → p ∉ untracked →
  ∃ q, q ∈ paths ∧ q ≠ "." ∧ q ∉ staged ∧ q ∉ tracked ∧ q ∉ untracked
    ∧ ∀ addAll st,
        for_each paths (check_path staged tracked untracked) addAll st
        = Returned Return
            (printed ("'" +:+ q +:+ "' did not match any files") st).
Proof.
  intros Hin Hdot Hs Ht Hu. induction paths as [|x l IH]; [by inversion Hin|].
  assert (∀ addAll' : bool,
            p ∈ l →
            (∀ addAll st,
               check_path staged tracked untracked x addAll st
               = Returned (Next addAll') st) →
            ∃ q, q ∈ x :: l ∧ q ≠ "." ∧ q ∉ staged ∧ q ∉ tracked
              ∧ q ∉ untracked
              ∧ ∀ addAll st,
                  for_each (x :: l) (check_path staged tracked untracked)
                           addAll st
                  = Returned Return
                      (printed ("'" +:+ q +:+ "' did not match any files") st))
    as Hnext.
  { intros addAll' Hl Hx. destruct (IH Hl) as (q & Hq & ? & ? & ? & ? & Hrun).
    exists q. split_and!; try done; [by apply list_elem_of_further|].
    intros addAll st. simpl. rewrite (bind_Returned _ _ _ _ _ (Hx addAll st)).
    apply Hrun. }
  destruct (decide (x = ".")) as [Hx|Hx].
  { apply (Hnext true).
    - apply elem_of_cons in Hin as [->|?]; done.
    - intros addAll st. unfold check_path. by rewrite decide_True. }
  destruct (decide ((x ∉ staged) ∧ (x ∉ tracked) ∧ (x ∉ untracked)))
    as [(? & ? & ?)|Hknown].
  - exists x. split_and!; try done; [apply list_elem_of_here|].
    intros addAll st. simpl. unfold check_path.
    rewrite decide_False, decide_True by done. reflexivity.
  - assert (p ∈ l) as Hl.
    { apply elem_of_cons in Hin as [->|?]; [|done]. by destruct Hknown. }
    destruct (IH Hl) as (q & Hq & ? & ? & ? & ? & Hrun).
    exists q. split_and!; try done; [by apply list_elem_of_further|].
    intros addAll st. simpl. unfold check_path at 1.
    rewrite !decide_False by done. unfold bind at 1, ret at 1. apply Hrun.
Qed.




(** ** Restore *)

Lemma truthy_current_head st h : current_head st = Some h → truthy (Some h) = true.
Proof.
  unfold current_head. destruct (String.eqb (strip (HEAD st)) "") eqn:E; [done|].
  intros [= <-]. simpl. by rewrite E.
Qed.

Lemma restore_match_miss path (d : dict) st :
  path ∉ dict_keys d →
  for_each d (restore_match path) tt st = Returned (Next tt) st.
Proof.
  unfold dict_keys. induction d as [|[file file_hash] d IH]; intros Hnot.
  - reflexivity.
  - rewrite fmap_cons, not_elem_of_cons in Hnot. destruct Hnot as [Hne Hnot].
    simpl in *. rewrite decide_False by done.
    unfold bind at 1, ret at 1. by apply IH.
Qed.

Section Restore.
Context `{PyLib}.

(** When the scan of the committed files returns, the object HEAD names,
    if it is there and is not empty, is the text of a commit. *)
Lemma scan_committed_loads staged st sets st' h text :
  scan_committed staged st = Returned sets st' →
  current_head st = Some h → objects st !! h = Some text →
  truthy (Some text) = true →
  ∃ c, json_loads text = Some c.
Proof.
  unfold scan_committed. intros Hrun Hhead Hobj Htext.
  rewrite (bind_Returned _ _ _ _ _ (get_current_head_spec st)) in Hrun.
  rewrite Hhead, (truthy_current_head _ _ Hhead) in Hrun.
  unfold bind at 1 in Hrun. simpl in Hrun. unfold gets in Hrun.
  rewrite Hobj, Htext in Hrun. simpl in Hrun.
  unfold bind, loads in Hrun. destruct (json_loads text); [by eexists|done].
Qed.

Lemma restore_file_miss st path h :
  current_head st = Some h →
  (∀ text, objects st !! h = Some text → truthy (Some text) = true →
           ∃ c, json_loads text = Some c ∧ path ∉ dict_keys (files c)) →
  restore_file path st = Returned tt st.
Proof.
  intros Hhead Hcommit. unfold restore_file.
  rewrite (bind_Returned _ _ _ _ _ (get_current_head_spec st)), Hhead.
  unfold bind at 1. simpl. unfold gets.
  destruct (objects st !! h) as [text|] eqn:Hobj; [|reflexivity].
  destruct (truthy (Some text)) eqn:Htext; [|reflexivity].
  destruct (Hcommit text eq_refl Htext) as (c & Hc & Hnot).
  simpl. unfold bind at 1, loads. rewrite Hc. unfold ret at 1.
  unfold bind. by rewrite restore_match_miss.
Qed.

(** Once HEAD names a commit, [restore] does what C10 says: when the path
    [p] is staged, is marked as changed by the scan, and is not among the
    files of the commit HEAD names, [restore] of [p] returns and leaves the
    working tree, the repository and the printed text as they were. *)
Lemma restore_staged_only_is_silent st p h tracked changed st1 :
  current_head st = Some h →
  get_tracked_files (list_to_set (dict_keys (index st))) st
  = Returned (tracked, changed) st1 →
  p ∈ dict_keys (index st) → p ∈ changed →
  (∀ text c, objects st !! h = Some text → json_loads text = Some c →
             p ∉ dict_keys (files c)) →
  restore [p] st = Returned tt st.
Proof.
  intros Hhead Htf Hstaged Hchanged Hfiles.
  pose proof (read_only_Returned _ _ _ _ (read_only_get_tracked_files _) Htf)
    as ->.
  unfold restore.
  rewrite (bind_Returned _ _ _ _ _ (get_current_head_spec st)), Hhead.
  rewrite (truthy_current_head _ _ Hhead). simpl negb. cbv iota.
  unfold bind at 1, ret at 1.
  rewrite (bind_Returned _ _ _ _ _ (get_staged_files_spec st)).
  rewrite (bind_Returned _ _ _ _ _ Htf).
  simpl. rewrite decide_True by done.
  rewrite (bind_Returned _ _ _ tt st); [reflexivity|].
  apply (restore_file_miss st p h Hhead).
  intros text Hobj Htext.
  unfold get_tracked_files in Htf. inv_bind Htf as sets st2 Hscan.
  destruct (scan_committed_loads _ _ _ _ _ _ Hscan Hhead Hobj Htext)
    as [c Hc].
  exists c. split; [done|]. by eapply Hfiles.
Qed.

End Restore.

Lemma restore_staged_only_is_silent_witness :
  @restore Scenario.lib ["b.txt"] Scenario.drifted_after_commit
  = Returned tt Scenario.drifted_after_commit.
Proof.
  apply (@restore_staged_only_is_silent Scenario.lib
           Scenario.drifted_after_commit "b.txt"
           "3d6abe0ab98be9731c93d261ac3371df127aaa2c"
           {[ "a.txt" ]} {[ "b.txt" ]} Scenario.drifted_after_commit).
  - vm_compute. reflexivity.
  - vm_compute. reflexivity.
  - vm_compute. apply list_elem_of_here.
  - set_solver.
  - intros text c Hobj Hc.
    assert (text = json_dumps Scenario.first_commit) as ->.
    { vm_compute in Hobj. by injection Hobj as <-. }
    vm_compute in Hc. injection Hc as <-.
    unfold dict_keys. simpl. rewrite list_elem_of_singleton. discriminate.
Defined.

(** C10, at a failing input: before the first commit [a.txt] is staged,
    its text has changed since, and no commit holds it; [restore] prints
    "No commit found", goes on, and [restore_file] raises [TypeError] when it
    asks for the commit that [None] names. *)
Theorem restore_before_first_commit_raises :
  ∃ tracked changed,
    @get_tracked_files Scenario.lib
      (list_to_set (dict_keys (index Scenario.drifted))) Scenario.drifted
    = Returned (tracked, changed) Scenario.drifted
    ∧ "a.txt" ∈ dict_keys (index Scenario.drifted)
    ∧ "a.txt" ∈ changed ∧ "a.txt" ∉ tracked
    ∧ HEAD Scenario.drifted = ""
    ∧ @restore Scenario.lib ["a.txt"] Scenario.drifted
      = Raised TypeError (printed "No commit found" Scenario.drifted).
Proof.
  exists ∅, {[ "a.txt" ]}.
  split; [vm_compute; reflexivity|].
  split; [vm_compute; apply list_elem_of_here|].
  split; [set_solver|]. split; [set_solver|].
  split; vm_compute; reflexivity.
Qed.

(** ** Log *)

Lemma printed_all_cons line lines st :
  printed_all lines (printed line st) = printed_all (line :: lines) st.
Proof.
  unfold printed_all, printed, set_stdout. simpl.
  by rewrite <- app_assoc.
Qed.

Lemma printed_all_nil st : printed_all [] st = st.
Proof.
  unfold printed_all, set_stdout. rewrite app_nil_r. by destruct st.
Qed.

Section Log.
Context `{PyLib}.

(** The loop of [log] prints the entries of the chain and ends as the
    chain does, as soon as the fuel exceeds the length of the chain. *)
Lemma log_loop_history objs head entries e :
  history objs head entries e →
  ∀ fuel st,
    objects st = objs → length entries < fuel →
    log_loop fuel head st
    = match e with
      | AtRoot => Returned tt (printed_all entries st)
      | Missing d =>
          Raised (ValueError ("Commit data for hash " +:+ d +:+ " not found."))
                 (printed_all entries st)
      end.
Proof.
  induction 1 as [head Hhead|h Hh Hobj
                 |h text c date entries e Hh Hobj Hc Hd Hrest IH];
    intros fuel st Hst Hfuel.
  - rewrite printed_all_nil. destruct fuel; cbn [log_loop]; by rewrite Hhead.
  - rewrite printed_all_nil. destruct fuel as [|fuel]; [simpl in Hfuel; lia|].
    cbn [log_loop]. rewrite Hh. unfold bind. cbn [get_commit_data].
    unfold gets. rewrite Hst, Hobj. reflexivity.
  - destruct fuel as [|fuel]; [simpl in Hfuel; lia|].
    cbn [log_loop]. rewrite Hh. unfold bind at 1. cbn [get_commit_data].
    unfold gets. rewrite Hst, Hobj.
    unfold bind at 1, loads. rewrite Hc. unfold ret at 1. rewrite Hd.
    unfold bind, print, modify.
    change (set_stdout _ st) with (printed (log_entry h date (message c)) st).
    rewrite (IH fuel (printed (log_entry h date (message c)) st));
      [|done|simpl in Hfuel; lia].
    rewrite printed_all_cons. reflexivity.
Qed.

(** C4, as the code has it: when the chain of parent fields from HEAD
    ends at a commit without parent, [log], run from [main] with enough
    fuel, prints one entry per commit of the chain and returns; when the
    chain ends at a digest that the object store lacks, it prints the
    entries of the commits before it and raises [ValueError], which [main]
    does not catch. *)
Theorem log_follows_parents st now fuel h entries e :
  current_head st = Some h →
  history (objects st) (Some h) entries e →
  length entries < fuel →
  main now fuel Log st
  = match e with
    | AtRoot => Returned tt (printed_all entries st)
    | Missing d =>
        Raised (ValueError ("Commit data for hash " +:+ d +:+ " not found."))
               (printed_all entries st)
    end.
Proof.
  intros Hhead Hhist Hfuel. simpl. unfold log.
  rewrite (bind_Returned _ _ _ _ _ (get_current_head_spec st)), Hhead.
  rewrite (truthy_current_head _ _ Hhead).
  by eapply log_loop_history.
Qed.

End Log.

Lemma log_follows_parents_witness :
  let h1 := "3d6abe0ab98be9731c93d261ac3371df127aaa2c" in
  let h2 := "b4e685eba3aa48701b6f58218e272999079e15e6" in
  @main Scenario.lib Scenario.day2 3 Log Scenario.two_commits
  = Returned tt
      (printed_all [log_entry h2 "02 Jan 2024  11:30:00 " "second";
                    log_entry h1 "01 Jan 2024  10:00:00 " "first"]
         Scenario.two_commits).
Proof.
  intros h1 h2.
  apply (@log_follows_parents Scenario.lib Scenario.two_commits Scenario.day2
           3 h2 _ AtRoot).
  - vm_compute. reflexivity.
  - apply (@history_commit Scenario.lib _ h2
             (json_dumps Scenario.second_commit) Scenario.second_commit);
      [vm_compute; reflexivity..|].
    apply (@history_commit Scenario.lib _ h1
             (json_dumps Scenario.first_commit) Scenario.first_commit);
      [vm_compute; reflexivity..|].
    apply history_root. reflexivity.
  - simpl. lia.
Defined.

(** C4, as stated, fails on the recovery: in the repository whose first
    commit object is lost, HEAD names the second commit, whose parent is
    the lost digest; [main] prints the entry of the second commit and ends
    with the [ValueError] raised by [log], and no message about it is
    printed. *)
Lemma log_error_escapes_main :
  let h1 := "3d6abe0ab98be9731c93d261ac3371df127aaa2c" in
  let h2 := "b4e685eba3aa48701b6f58218e272999079e15e6" in
  HEAD Scenario.corrupt = h2
  ∧ objects Scenario.corrupt !! h2 = Some (json_dumps Scenario.second_commit)
  ∧ parent Scenario.second_commit = Some h1
  ∧ objects Scenario.corrupt !! h1 = None
  ∧ @main Scenario.lib Scenario.day2 3 Log Scenario.corrupt
    = Raised (ValueError ("Commit data for hash " +:+ h1 +:+ " not found."))
        (printed (log_entry h2 "02 Jan 2024  11:30:00 " "second")
           Scenario.corrupt).
Proof. split_and!; vm_compute; reflexivity. Qed.

(** ** Diff of a commit *)

Lemma printed_all_app l1 l2 st :
  printed_all l2 (printed_all l1 st) = printed_all (l1 ++ l2) st.
Proof.
  unfold printed_all, set_stdout. simpl. by rewrite <- app_assoc.
Qed.

Lemma printed_printed_all line st : printed line st = printed_all [line] st.
Proof. reflexivity. Qed.

Lemma print_spec line st : print line st = Returned tt (printed line st).
Proof. reflexivity. Qed.

Lemma get_file_content_spec name text st :
  objects st !! name = Some text →
  get_file_content name st = Returned text st.
Proof. unfold get_file_content. by intros ->. Qed.

Lemma print_diff_line_spec line st :
  print_diff_line line st = Returned tt (printed (render_diff_line line) st).
Proof.
  unfold print_diff_line, render_diff_line.
  destruct line as [|c rest]; [reflexivity|].
  destruct (Ascii.eqb c "+"); [reflexivity|].
  destruct (Ascii.eqb c "-"); reflexivity.
Qed.

Lemma print_diff_lines_spec lines st :
  for_ lines (λ line _, print_diff_line line) tt st
  = Returned tt (printed_all (render_diff_line <$> lines) st).
Proof.
  revert st. induction lines as [|line lines IH]; intros st; simpl.
  - by rewrite printed_all_nil.
  - rewrite (bind_Returned _ _ _ _ _ (print_diff_line_spec line st)).
    by rewrite IH, printed_all_cons.
Qed.

Section ShowDiff.
Context `{PyLib}.

(** One turn of the loop of [show_commit_diff], for a commit whose parent
    is in the object store, when the texts it needs are there too. *)
Lemma show_file_diff_spec c ph ptext pc p fh st :
  parent c = Some ph → truthy (Some ph) = true →
  objects st !! ph = Some ptext → json_loads ptext = Some pc →
  is_Some (objects st !! fh) →
  (∀ pfh, dict_get p (files pc) = Some pfh → is_Some (objects st !! pfh)) →
  show_file_diff c (p, fh) tt st
  = Returned (Next tt)
      (printed_all (file_report (objects st) (files pc) (p, fh)) st).
Proof.
  intros Hparent Hph Hpobj Hpc [content Hcontent] Hblobs.
  unfold show_file_diff, file_report. cbn [fst snd].
  rewrite (bind_Returned _ _ _ _ _ (print_spec _ st)).
  set (st1 := printed _ st).
  assert (objects st1 = objects st) as Hobjs by reflexivity.
  rewrite (bind_Returned _ _ st1 content st1) by
    (apply get_file_content_spec; by rewrite Hobjs).
  rewrite Hparent, Hph. unfold bind at 1. cbn [get_commit_data].
  unfold gets. rewrite Hobjs, Hpobj.
  unfold bind at 1, loads. rewrite Hpc. unfold ret at 1.
  rewrite Hcontent. cbn [default].
  unfold dict_mem.
  destruct (dict_get p (files pc)) as [pfh|] eqn:Hget.
  - destruct (Hblobs pfh eq_refl) as [pcontent Hpcontent].
    rewrite Hpcontent. cbn [default].
    rewrite bool_decide_eq_true_2 by (by eexists). cbn [negb].
    unfold bind at 1.
    rewrite (bind_Returned _ _ st1 pcontent st1) by
      (apply get_file_content_spec; by rewrite Hobjs).
    rewrite print_diff_lines_spec.
    unfold bind, ret, print, modify. f_equal.
    unfold st1. rewrite printed_printed_all, printed_all_app.
    change (set_stdout _ ?s) with (printed_all [""] s).
    by rewrite printed_all_app.
  - rewrite bool_decide_eq_false_2 by (by intros [? ?]). cbn [negb].
    unfold bind, ret, print, modify. f_equal.
    unfold st1, printed, printed_all, set_stdout. cbn.
    by rewrite <- !app_assoc.
Qed.

Lemma show_files_spec c ph ptext pc (l : dict) st :
  parent c = Some ph → truthy (Some ph) = true →
  objects st !! ph = Some ptext → json_loads ptext = Some pc →
  (∀ p fh, (p, fh) ∈ l → is_Some (objects st !! fh)) →
  (∀ p fh pfh, (p, fh) ∈ l → dict_get p (files pc) = Some pfh →
               is_Some (objects st !! pfh)) →
  for_each l (show_file_diff c) tt st
  = Returned (Next tt)
      (printed_all (concat (file_report (objects st) (files pc) <$> l)) st).
Proof.
  intros Hparent Hph. revert st.
  induction l as [|[p fh] l IH]; intros st Hpobj Hpc Hblobs Hpblobs.
  - simpl. by rewrite printed_all_nil.
  - cbn [for_each].
    rewrite (bind_Returned _ _ _ _ _
               (show_file_diff_spec c ph ptext pc p fh st Hparent Hph Hpobj Hpc
                  (Hblobs p fh (list_elem_of_here _ _))
                  (λ pfh, Hpblobs p fh pfh (list_elem_of_here _ _)))).
    rewrite IH; try done.
    + rewrite printed_all_app. reflexivity.
    + intros p' fh' Hin. apply (Hblobs p' fh'). by apply list_elem_of_further.
    + intros p' fh' pfh Hin. apply (Hpblobs p' fh').
      by apply list_elem_of_further.
Qed.

(** C8: for a commit in the object store, [show_commit_diff] prints
    "First commit" and nothing else when the commit has no parent; when it
    has a parent that is in the object store, together with the texts of
    the files, it prints a heading and then the report of each file, and
    the report of a file that the parent lacks is the name of the file, the
    note "New file in this commit" and an empty line, with no line of a
    diff. *)
Theorem show_commit_diff_reports st h text c :
  objects st !! h = Some text → json_loads text = Some c →
  (truthy (parent c) = false →
   show_commit_diff h st = Returned tt (printed "First commit" st))
  ∧ (∀ ph ptext pc,
       parent c = Some ph → truthy (Some ph) = true →
       objects st !! ph = Some ptext → json_loads ptext = Some pc →
       (∀ p fh, (p, fh) ∈ files c → is_Some (objects st !! fh)) →
       (∀ p fh pfh, (p, fh) ∈ files c → dict_get p (files pc) = Some pfh →
                    is_Some (objects st !! pfh)) →
       show_commit_diff h st
       = Returned tt
           (printed_all
              ("Changes from the last commit: "
               :: concat (file_report (objects st) (files pc) <$> files c))
              st)
       ∧ ∀ p fh, (p, fh) ∈ files c → dict_get p (files pc) = None →
           file_report (objects st) (files pc) (p, fh)
           = ["File: " +:+ p; "New file in this commit"; ""]).
Proof.
  intros Hobj Hc.
  split.
  - intros Hroot. unfold show_commit_diff. unfold bind at 1.
    cbn [get_commit_data]. unfold gets. rewrite Hobj.
    unfold bind at 1, loads. rewrite Hc. unfold ret at 1.
    rewrite Hroot. reflexivity.
  - intros ph ptext pc Hparent Hph Hpobj Hpc Hblobs Hpblobs. split.
    + unfold show_commit_diff. unfold bind at 1.
      cbn [get_commit_data]. unfold gets. rewrite Hobj.
      unfold bind at 1, loads. rewrite Hc. unfold ret at 1.
      rewrite Hparent, Hph. cbn [negb].
      rewrite (bind_Returned _ _ _ _ _ (print_spec _ st)).
      erewrite bind_Returned;
        [|by apply (show_files_spec c ph ptext pc (files c))].
      unfold ret. f_equal. cbn [objects printed set_stdout].
      rewrite printed_printed_all, printed_all_app. reflexivity.
    + intros p fh _ Hnew. unfold file_report. cbn [fst snd].
      rewrite Hnew. reflexivity.
Qed.

End ShowDiff.

Lemma show_commit_diff_reports_witness :
  let h1 := "3d6abe0ab98be9731c93d261ac3371df127aaa2c" in
  let h2 := "b4e685eba3aa48701b6f58218e272999079e15e6" in
  @show_commit_diff Scenario.lib h1 Scenario.two_commits
  = Returned tt (printed "First commit" Scenario.two_commits)
  ∧ @show_commit_diff Scenario.lib h2 Scenario.two_commits
    = Returned tt
        (printed_all
           ["Changes from the last commit: ";
            "File: a.txt";
            ESC +:+ "[91m-- -- " +:+ ESC +:+ "[0m";
            ESC +:+ "[92m++ ++ " +:+ ESC +:+ "[0m";
            ESC +:+ "[90m@@ -1 +1 @@" +:+ ESC +:+ "[0m";
            ESC +:+ "[91m-- hello" +:+ ESC +:+ "[0m";
            ESC +:+ "[92m++ hello world" +:+ ESC +:+ "[0m";
            "";
            "File: b.txt"; "New file in this commit"; ""]
           Scenario.two_commits)
  ∧ @file_report Scenario.lib (objects Scenario.two_commits)
      (files Scenario.first_commit) ("b.txt", generate_hash "bye")
    = ["File: b.txt"; "New file in this commit"; ""].
Proof.
  intros h1 h2.
  assert (objects Scenario.two_commits !! h1
          = Some (json_dumps Scenario.first_commit)) as Hobj1
    by (vm_compute; reflexivity).
  assert (objects Scenario.two_commits !! h2
          = Some (json_dumps Scenario.second_commit)) as Hobj2
    by (vm_compute; reflexivity).
  assert (@json_loads Scenario.lib (json_dumps Scenario.first_commit)
          = Some Scenario.first_commit) as Hc1 by (vm_compute; reflexivity).
  assert (@json_loads Scenario.lib (json_dumps Scenario.second_commit)
          = Some Scenario.second_commit) as Hc2 by (vm_compute; reflexivity).
  destruct (@show_commit_diff_reports Scenario.lib Scenario.two_commits h1
              _ _ Hobj1 Hc1) as [Hroot _].
  destruct (@show_commit_diff_reports Scenario.lib Scenario.two_commits h2
              _ _ Hobj2 Hc2) as [_ Hchild].
  destruct (Hchild h1 (json_dumps Scenario.first_commit)
              Scenario.first_commit) as [Hrun Hnew].
  - vm_compute. reflexivity.
  - reflexivity.
  - exact Hobj1.
  - exact Hc1.
  - intros p fh Hin. apply list_elem_of_In in Hin. vm_compute in Hin.
    destruct Hin as [Hin|[Hin|[]]]; injection Hin as <- <-; vm_compute;
      eexists; reflexivity.
  - intros p fh pfh Hin Hget. apply list_elem_of_In in Hin.
    vm_compute in Hin.
    destruct Hin as [Hin|[Hin|[]]]; injection Hin as <- <-;
      vm_compute in Hget; [|discriminate].
    injection Hget as <-. vm_compute. eexists. reflexivity.
  - split; [apply Hroot; reflexivity|]. split.
    + rewrite Hrun. vm_compute. reflexivity.
    + apply Hnew; [|vm_compute; reflexivity].
      apply list_elem_of_further, list_elem_of_here.
Defined.

(** ** The walk of the working tree *)

(** C2, at two failing inputs.  The walk reads the file named by the bare
    name of each file, relative to the working directory.  In [nested] the
    only file is [sub/b.txt]; the object store is empty, so that no entry
    exists for its digest, and the scan raises [FileNotFoundError] for
    [b.txt] instead of reporting [sub/b.txt].  In [same_name] the file
    [sub/a.txt] holds "hello world", for which the store has no entry; the
    scan hashes the staged top-level [a.txt] in its place, finds that
    digest in the store, and does not report [sub/a.txt]. *)
Theorem untracked_scan_reads_bare_name :
  (worktree Scenario.nested !! "sub/b.txt" = Some "hello"
   ∧ index Scenario.nested = [] ∧ HEAD Scenario.nested = ""
   ∧ objects Scenario.nested = ∅
   ∧ get_untracked_files ∅ ∅ Scenario.nested
     = Raised (FileNotFoundError "b.txt") Scenario.nested)
  ∧ (worktree Scenario.same_name !! "sub/a.txt" = Some "hello world"
     ∧ dict_keys (index Scenario.same_name) = ["a.txt"]
     ∧ HEAD Scenario.same_name = ""
     ∧ objects Scenario.same_name !! generate_hash "hello world" = None
     ∧ get_untracked_files {[ "a.txt" ]} ∅ Scenario.same_name
       = Returned ∅ Scenario.same_name).
Proof. split; split_and!; vm_compute; reflexivity. Qed.

(** * Further properties of the methods *)

(** ** What a method keeps *)

Lemma preserves_ret {A} P (a : A) : preserves P (ret a).
Proof. by intros st. Qed.

Lemma preserves_raise {A} P e : preserves P (@raise A e).
Proof. by intros st. Qed.

Lemma preserves_out_of_fuel {A} P : preserves P (@out_of_fuel A).
Proof. by intros st. Qed.

Lemma preserves_read_only {A} P (m : M A) : read_only m → preserves P m.
Proof. intros Hro st HP. by rewrite Hro. Qed.

Lemma preserves_bind {A B} P (m : M A) (k : A → M B) :
  preserves P m → (∀ a, preserves P (k a)) → preserves P (bind m k).
Proof.
  intros Hm Hk st HP. unfold bind. specialize (Hm st HP).
  destruct (m st) as [a st'| |]; simpl in *; try done. by apply Hk.
Qed.

Lemma preserves_for_ {A S} P (l : list A) (body : A → S → M S) s :
  (∀ x s, preserves P (body x s)) → preserves P (for_ l body s).
Proof.
  intros Hbody. revert s. induction l as [|x l IH]; intros s; simpl.
  - apply preserves_ret.
  - apply preserves_bind; auto.
Qed.

Lemma preserves_for_each {A S} P (l : list A) (body : A → S → M (flow S)) s :
  (∀ x s, preserves P (body x s)) → preserves P (for_each l body s).
Proof.
  intros Hbody. revert s. induction l as [|x l IH]; intros s; simpl.
  - apply preserves_ret.
  - apply preserves_bind; [auto|]. intros [s'|]; [apply IH|apply preserves_ret].
Qed.

Lemma preserves_print P line : stable_print P → preserves P (print line).
Proof. intros HP st Hst. by apply HP. Qed.

Lemma preserves_dump_index P d : stable_index P → preserves P (dump_index d).
Proof. intros HP st Hst. by apply HP. Qed.

Lemma preserves_write_file P path text :
  stable_worktree P → preserves P (write_file path text).
Proof. intros HP st Hst. by apply HP. Qed.

Lemma preserves_write_object P text :
  stable_store P → preserves P (write_object (generate_hash text) text).
Proof. intros HP st Hst. by apply HP. Qed.

Lemma preserves_update_head P h : stable_head P → preserves P (update_head h).
Proof. intros HP st Hst. by apply HP. Qed.

Lemma preserves_final {A} P (m : M A) st :
  preserves P m → P st → P (final_state (m st)).
Proof. auto. Qed.

Ltac preserves_step :=
  first
    [ solve [auto 1]
    | apply preserves_ret | apply preserves_raise | apply preserves_out_of_fuel
    | apply preserves_print; assumption
    | apply preserves_dump_index; assumption
    | apply preserves_write_file; assumption
    | apply preserves_write_object; assumption
    | apply preserves_update_head; assumption
    | apply preserves_read_only; solve [read_only_tac]
    | apply preserves_bind | apply preserves_for_ | apply preserves_for_each
    | match goal with
      | |- preserves _ (match ?x with _ => _ end) => destruct x
      | |- preserves _ ((match ?x with _ => _ end) _) => destruct x
      end ].

Ltac preserves_tac :=
  repeat (lazymatch goal with
          | |- preserves _ _ => idtac
          | _ => intros
          end;
          preserves_step).

Section Preserves.
Context `{PyLib}.
Variable P : repo → Prop.

Lemma preserves_add_file path :
  stable_print P → stable_index P → stable_store P →
  preserves P (add_file path).
Proof.
  intros ? ? ?. unfold add_file, append_to_staging_area, load_index.
  preserves_tac.
Qed.

Lemma preserves_add paths :
  stable_print P → stable_index P → stable_store P →
  preserves P (add paths).
Proof.
  intros ? ? ?. unfold add, check_path.
  pose proof (λ p, preserves_add_file p ltac:(done) ltac:(done) ltac:(done)).
  pose proof (preserves_read_only P _ read_only_get_staged_files).
  pose proof (λ s, preserves_read_only P _ (read_only_get_tracked_files s)).
  pose proof (λ s t, preserves_read_only P _
                       (read_only_get_untracked_files s t)).
  preserves_tac.
Qed.

Lemma preserves_unstage_file path :
  stable_print P → stable_index P → preserves P (unstage_file path).
Proof. intros ? ?. unfold unstage_file, load_index. preserves_tac. Qed.

Lemma preserves_unstage paths :
  stable_print P → stable_index P → preserves P (unstage paths).
Proof.
  intros ? ?. unfold unstage.
  pose proof (λ p, preserves_unstage_file p ltac:(done) ltac:(done)).
  pose proof (preserves_read_only P _ read_only_get_staged_files).
  preserves_tac.
Qed.

Lemma preserves_restore_file path :
  stable_print P → stable_worktree P → preserves P (restore_file path).
Proof.
  intros ? ?. unfold restore_file, restore_match.
  pose proof (preserves_read_only P _ read_only_get_current_head).
  pose proof (λ h, preserves_read_only P _ (read_only_get_commit_data h)).
  pose proof (λ t, preserves_read_only P _ (read_only_loads t)).
  preserves_tac.
Qed.

Lemma preserves_restore paths :
  stable_print P → stable_worktree P → preserves P (restore paths).
Proof.
  intros ? ?. unfold restore.
  pose proof (λ p, preserves_restore_file p ltac:(done) ltac:(done)).
  pose proof (preserves_read_only P _ read_only_get_current_head).
  pose proof (preserves_read_only P _ read_only_get_staged_files).
  pose proof (λ s, preserves_read_only P _ (read_only_get_tracked_files s)).
  preserves_tac.
Qed.

Lemma preserves_status : stable_print P → preserves P status.
Proof.
  intros ?. unfold status.
  pose proof (preserves_read_only P _ read_only_get_staged_files).
  pose proof (λ s, preserves_read_only P _ (read_only_get_tracked_files s)).
  pose proof (λ s t, preserves_read_only P _
                       (read_only_get_untracked_files s t)).
  preserves_tac.
Qed.

Lemma preserves_commit now msg :
  stable_print P → stable_index P → stable_store P → stable_head P →
  preserves P (commit now msg).
Proof.
  intros ? ? ? ?. unfold commit, load_index.
  pose proof (preserves_read_only P _ read_only_get_current_head).
  preserves_tac.
Qed.

Lemma preserves_log_loop fuel head :
  stable_print P → preserves P (log_loop fuel head).
Proof.
  intros ?. revert head. induction fuel as [|fuel IH]; intros head; simpl.
  - destruct (truthy head); preserves_tac.
  - pose proof (λ h, preserves_read_only P _ (read_only_get_commit_data h)).
    pose proof (λ t, preserves_read_only P _ (read_only_loads t)).
    preserves_tac.
Qed.

Lemma preserves_log fuel : stable_print P → preserves P (log fuel).
Proof.
  intros ?. unfold log.
  pose proof (preserves_read_only P _ read_only_get_current_head).
  pose proof (λ h, preserves_log_loop fuel h ltac:(done)).
  preserves_tac.
Qed.

Lemma preserves_show_commit_diff commit_hash :
  stable_print P → preserves P (show_commit_diff commit_hash).
Proof.
  intros ?. unfold show_commit_diff, show_file_diff, print_diff_line.
  pose proof (λ h, preserves_read_only P _ (read_only_get_commit_data h)).
  pose proof (λ t, preserves_read_only P _ (read_only_loads t)).
  preserves_tac.
Qed.

End Preserves.

(** ** What each command may change *)

(** X1.  Each command changes its own part of the state and nothing else,
    however it ends: [add] leaves the working tree and HEAD alone;
    [restore --staged] changes only the index; [restore] changes only the
    working tree; [commit] leaves the working tree alone; [status], [log]
    and [show-diff] only print. *)
Theorem main_changes_only `{PyLib} now fuel a st :
  let st' := final_state (main now fuel a st) in
  directory st' = directory st
  ∧ match a with
    | Add _ => worktree st' = worktree st ∧ HEAD st' = HEAD st
    | Restore true _ =>
        worktree st' = worktree st ∧ objects st' = objects st
        ∧ HEAD st' = HEAD st
    | Restore false _ =>
        objects st' = objects st ∧ index st' = index st
        ∧ HEAD st' = HEAD st
    | Commit _ => worktree st' = worktree st
    | Status | Log | ShowDiff _ => ∃ lines, st' = printed_all lines st
    end.
Proof.
  assert (stable_print (λ s, ∃ lines, s = printed_all lines st)) as Hlines.
  { intros line s [lines ->]. exists (lines ++ [line]).
    by rewrite printed_printed_all, printed_all_app. }
  assert (∃ lines, st = printed_all lines st) as Hnil.
  { exists []. by rewrite printed_all_nil. }
  split.
  - apply (preserves_final (λ s, directory s = directory st)); [|done].
    destruct a as [paths|[|] paths| |msg| |h]; simpl;
      [apply preserves_add|apply preserves_unstage|apply preserves_restore
      |apply preserves_status|apply preserves_commit|apply preserves_log
      |apply preserves_show_commit_diff]; by intros ? **.
  - destruct a as [paths|[|] paths| |msg| |h]; simpl.
    + apply (preserves_add
               (λ s, worktree s = worktree st ∧ HEAD s = HEAD st));
        by try intros ? **.
    + apply (preserves_unstage
               (λ s, worktree s = worktree st ∧ objects s = objects st
                     ∧ HEAD s = HEAD st));
        by try intros ? **.
    + apply (preserves_restore
               (λ s, objects s = objects st ∧ index s = index st
                     ∧ HEAD s = HEAD st));
        by try intros ? **.
    + by apply (preserves_status _ Hlines).
    + apply (preserves_commit (λ s, worktree s = worktree st));
        by try intros ? **.
    + by apply (preserves_log _ fuel Hlines).
    + by apply (preserves_show_commit_diff _ h Hlines).
Qed.

(** X2.  No command removes an object: a name under which the object
    directory holds a text before a command holds one after it. *)
Theorem main_never_deletes_objects `{PyLib} now fuel a st name :
  is_Some (objects st !! name) →
  is_Some (objects (final_state (main now fuel a st)) !! name).
Proof.
  intros Hname.
  set (P := λ s : repo, is_Some (objects s !! name)).
  assert (stable_print P) by (by intros ? **).
  assert (stable_index P) by (by intros ? **).
  assert (stable_worktree P) by (by intros ? **).
  assert (stable_head P) by (by intros ? **).
  assert (stable_store P) as Hstore.
  { intros text s Hs. unfold P in *. simpl.
    destruct (decide (generate_hash text = name)) as [->|Hne].
    - rewrite lookup_insert_eq. by eexists.
    - by rewrite lookup_insert_ne. }
  apply (preserves_final P); [|done].
  destruct a as [paths|[|] paths| |msg| |h]; simpl;
    [apply preserves_add|apply preserves_unstage|apply preserves_restore
    |apply preserves_status|apply preserves_commit|apply preserves_log
    |apply preserves_show_commit_diff]; done.
Qed.

Lemma main_never_deletes_objects_witness :
  is_Some (objects
             (final_state
                (@main Scenario.lib Scenario.day2 3 (Add ["b.txt"])
                   (Scenario.edit "b.txt" "bye" Scenario.committed)))
           !! generate_hash "hello").
Proof.
  apply (@main_never_deletes_objects Scenario.lib).
  vm_compute. eexists. reflexivity.
Defined.

(** X3.  Content addressing is kept: when every object is stored under
    the digest of its text, the same is true after any command. *)
Theorem main_keeps_store_ok `{PyLib} now fuel a st :
  store_ok st → store_ok (final_state (main now fuel a st)).
Proof.
  assert (stable_print store_ok) by (by intros ? **).
  assert (stable_index store_ok) by (by intros ? **).
  assert (stable_worktree store_ok) by (by intros ? **).
  assert (stable_head store_ok) by (by intros ? **).
  assert (stable_store store_ok) as Hstore.
  { intros text s Hs name text'. simpl.
    destruct (decide (generate_hash text = name)) as [<-|Hne].
    - rewrite lookup_insert_eq. by intros [= <-].
    - rewrite lookup_insert_ne by done. apply Hs. }
  intros Hok. apply (preserves_final store_ok); [|done].
  destruct a as [paths|[|] paths| |msg| |h]; simpl;
    [apply preserves_add|apply preserves_unstage|apply preserves_restore
    |apply preserves_status|apply preserves_commit|apply preserves_log
    |apply preserves_show_commit_diff]; done.
Qed.

Lemma main_keeps_store_ok_witness :
  store_ok
    (final_state (@main Scenario.lib Scenario.day1 3 (Add ["a.txt"])
                    Scenario.fresh)).
Proof.
  apply (@main_keeps_store_ok Scenario.lib).
  intros name text Hobj. vm_compute in Hobj. discriminate.
Defined.

(** ** The walk of the working tree, continued *)

Lemma string_app_assoc (s1 s2 s3 : string) :
  (s1 +:+ s2) +:+ s3 = s1 +:+ (s2 +:+ s3).
Proof.
  induction s1 as [|c s1 IH]; [done|].
  change (String c ((s1 +:+ s2) +:+ s3) = String c (s1 +:+ (s2 +:+ s3))).
  by f_equal.
Qed.

Lemma prefix_app needle s t :
  String.prefix needle s = true → String.prefix needle (s +:+ t) = true.
Proof.
  revert s. induction needle as [|a needle IH]; intros s.
  { intros _. by destruct (s +:+ t). }
  destruct s as [|b s]; [done|].
  change (String b s +:+ t) with (String b (s +:+ t)). simpl.
  destruct (ascii_dec a b); [apply IH|done].
Qed.

Lemma contains_app needle s t :
  contains needle s = true → contains needle (s +:+ t) = true.
Proof.
  induction s as [|b s IH].
  - unfold contains. rewrite orb_false_r. intros Hp.
    destruct needle; [|done]. by destruct t.
  - change (String b s +:+ t) with (String b (s +:+ t)).
    change (contains needle (String b s))
      with (String.prefix needle (String b s) || contains needle s).
    change (contains needle (String b (s +:+ t)))
      with (String.prefix needle (String b (s +:+ t))
            || contains needle (s +:+ t)).
    intros [Hp|Hc]%orb_true_iff.
    + apply (prefix_app _ _ t) in Hp.
      change (String b s +:+ t) with (String b (s +:+ t)) in Hp.
      by rewrite Hp.
    + rewrite (IH Hc). apply orb_true_r.
Qed.

Lemma os_walk_roots st root files :
  (root, files) ∈ os_walk st →
  ∃ rest, root = directory st +:+ rest.
Proof.
  unfold os_walk. intros (d & Heq & _)%list_elem_of_fmap.
  injection Heq as -> _. destruct (decide (d = "")).
  - exists "". by rewrite string_app_empty_r.
  - by eexists.
Qed.

(** X4.  The guard of line 183 looks for the text [.gitto] anywhere in
    the absolute path of a directory: in a repository whose own path
    holds that text, every directory is skipped and no file is ever
    reported as untracked. *)
Theorem no_untracked_files_below_gitto_path staged tracked st :
  contains ".gitto" (directory st) = true →
  get_untracked_files staged tracked st = Returned ∅ st.
Proof.
  intros Hdir. unfold get_untracked_files, bind, gets.
  assert (∀ walk,
            (∀ root files, (root, files) ∈ walk →
                           contains ".gitto" root = true) →
            for_ walk (scan_walked_dir staged tracked) ∅ st = Returned ∅ st)
    as Hloop.
  { induction walk as [|[root files] walk IH]; intros Hwalk; [done|].
    simpl. unfold bind.
    rewrite (Hwalk root files (list_elem_of_here _ _)). unfold ret at 1.
    apply IH. intros r f Hin. apply (Hwalk r f). by apply list_elem_of_further. }
  apply Hloop. intros root files [rest ->]%os_walk_roots.
  by apply contains_app.
Qed.

Lemma no_untracked_files_below_gitto_path_witness :
  get_untracked_files ∅ ∅ Cases.hidden = Returned ∅ Cases.hidden
  ∧ worktree Cases.hidden !! "a.txt" = Some "hello"
  ∧ objects Cases.hidden = ∅.
Proof.
  split; [|split; reflexivity].
  apply (no_untracked_files_below_gitto_path ∅ ∅ Cases.hidden).
  vm_compute. reflexivity.
Defined.

Lemma prefix_slash c p :
  String.prefix "/" (String c p) = false → Ascii.eqb c "/" = false.
Proof.
  cbn [String.prefix]. destruct (ascii_dec "/" c) as [<-|Hne].
  - by destruct p.
  - intros _. apply Ascii.eqb_neq. congruence.
Qed.

Lemma path_split_flat p : contains "/" p = false → path_split p = ("", p).
Proof.
  induction p as [|c p IH]; [done|].
  change (contains "/" (String c p))
    with (String.prefix "/" (String c p) || contains "/" p).
  intros [Hp Hc]%orb_false_iff. cbn [path_split].
  by rewrite (IH Hc), Hc, (prefix_slash _ _ Hp).
Qed.

Lemma remove_prefix_app pre s : remove_prefix pre (pre +:+ s) = Some s.
Proof.
  induction pre as [|a pre IH]; [by destruct s|].
  change (String a pre +:+ s) with (String a (pre +:+ s)).
  cbn [remove_prefix]. by rewrite Ascii.eqb_refl.
Qed.

Lemma flat_paths (l : list string) :
  Forall (λ p, contains "/" p = false) l →
  filter (λ d, d ≠ "") (dirname <$> l) = []
  ∧ filter (λ p, dirname p = "") l = l
  ∧ basename <$> l = l.
Proof.
  induction 1 as [|p l Hp Hl (IH1 & IH2 & IH3)]; [done|].
  assert (dirname p = "") as Hd by (unfold dirname; by rewrite path_split_flat).
  assert (basename p = p) as Hb by (unfold basename; by rewrite path_split_flat).
  rewrite fmap_cons, !filter_cons, fmap_cons.
  rewrite decide_False by (by intros ?).
  rewrite decide_True by done. by rewrite IH1, IH2, IH3, Hb.
Qed.

Lemma os_walk_flat st :
  (∀ p, is_Some (worktree st !! p) → contains "/" p = false) →
  os_walk st = [(directory st, (map_to_list (worktree st)).*1)].
Proof.
  intros Hflat. unfold os_walk.
  assert (Forall (λ p, contains "/" p = false) (map_to_list (worktree st)).*1)
    as Hall.
  { apply Forall_forall. intros p [[p' text] [-> Hin]]%list_elem_of_fmap.
    apply elem_of_map_to_list in Hin. apply Hflat. by eexists. }
  destruct (flat_paths _ Hall) as (H1 & H2 & H3).
  cbv zeta. rewrite H1. cbn [remove_dups fmap list_fmap].
  by rewrite decide_True, H2, H3.
Qed.

Lemma relpath_root st p :
  relpath (path_join (directory st) p) st = Returned p st.
Proof.
  unfold relpath, gets, path_join.
  by rewrite <- string_app_assoc, remove_prefix_app.
Qed.

Lemma read_file_spec st path text :
  worktree st !! path = Some text → read_file path st = Returned text st.
Proof. unfold read_file. by intros ->. Qed.

Lemma read_file_missing st path :
  worktree st !! path = None →
  read_file path st = Raised (FileNotFoundError path) st.
Proof. unfold read_file. by intros ->. Qed.

(** The loop over the files of the top directory, when every name is the
    path of a file of the working tree. *)
Lemma scan_walked_files_flat staged tracked st (l : list string) u0 :
  (∀ p, p ∈ l → is_Some (worktree st !! p)) →
  ∃ u, for_ l (scan_walked_file staged tracked (directory st)) u0 st
       = Returned u st
    ∧ ∀ q, q ∈ u ↔
        q ∈ u0
        ∨ (q ∈ l ∧ q ≠ "gitto.py" ∧ (q ∉ staged) ∧ (q ∉ tracked)
           ∧ ∃ content, worktree st !! q = Some content
                        ∧ objects st !! generate_hash content = None).
Proof.
  revert u0. induction l as [|p l IH]; intros u0 Hfiles.
  - exists u0. split; [done|]. intros q. set_solver.
  - destruct (Hfiles p (list_elem_of_here _ _)) as [content Hcontent].
    assert (∃ u1, scan_walked_file staged tracked (directory st) p u0 st
                  = Returned u1 st
              ∧ ∀ q, q ∈ u1 ↔
                  q ∈ u0
                  ∨ (q = p ∧ q ≠ "gitto.py" ∧ (q ∉ staged) ∧ (q ∉ tracked)
                     ∧ objects st !! generate_hash content = None))
      as (u1 & Hrun1 & Hu1).
    { unfold scan_walked_file.
      destruct (decide (p = "gitto.py")) as [Hpy|Hpy].
      { exists u0. split; [done|]. intros q. naive_solver. }
      rewrite (bind_Returned _ _ _ _ _ (relpath_root st p)).
      destruct (decide ((p ∉ staged) ∧ (p ∉ tracked))) as [[Hs Ht]|Hcls].
      - rewrite (bind_Returned _ _ _ _ _ (read_file_spec _ _ _ Hcontent)).
        unfold bind, object_exists, gets.
        destruct (objects st !! generate_hash content) as [text|] eqn:Hobj.
        + rewrite bool_decide_eq_true_2 by (by eexists). cbn [negb].
          exists u0. split; [done|]. intros q. naive_solver.
        + rewrite bool_decide_eq_false_2 by (by intros [? ?]). cbn [negb].
          exists ({[p]} ∪ u0). split; [done|]. intros q.
          rewrite elem_of_union, elem_of_singleton. naive_solver.
      - exists u0. split; [done|]. intros q. naive_solver. }
    destruct (IH u1) as (u & Hrun & Hu).
    { intros q Hq. apply Hfiles. by apply list_elem_of_further. }
    exists u. split.
    + cbn [for_]. by rewrite (bind_Returned _ _ _ _ _ Hrun1).
    + intros q. rewrite Hu, Hu1, elem_of_cons. split.
      * intros [[?|(-> & ? & ? & ? & ?)]|(? & ?)]; [by left| |by right; split; [right|]].
        right. split_and!; try done; [by left|by exists content].
      * intros [?|([->|?] & ? & ? & ? & content' & Hc' & ?)];
          [by left; left| |by right; split_and!; try done; exists content'].
        left. right. split_and!; try done. congruence.
Qed.

(** X5.  In a working tree without subdirectories, in a repository whose
    path does not hold the text [.gitto], the walk returns exactly the
    files, other than [gitto.py], that are neither staged nor tracked and
    for whose text the object store has no entry. *)
Theorem untracked_files_of_flat_tree staged tracked st :
  contains ".gitto" (directory st) = false →
  (∀ p, is_Some (worktree st !! p) → contains "/" p = false) →
  ∃ untracked,
    get_untracked_files staged tracked st = Returned untracked st
    ∧ ∀ p, p ∈ untracked ↔
        p ≠ "gitto.py" ∧ (p ∉ staged) ∧ (p ∉ tracked)
        ∧ ∃ content, worktree st !! p = Some content
                     ∧ objects st !! generate_hash content = None.
Proof.
  intros Hdir Hflat.
  destruct (scan_walked_files_flat staged tracked st
              (map_to_list (worktree st)).*1 ∅) as (u & Hrun & Hu).
  { intros p [[p' text] [-> Hin]]%list_elem_of_fmap.
    apply elem_of_map_to_list in Hin. by eexists. }
  exists u. split.
  - unfold get_untracked_files, bind, gets. rewrite (os_walk_flat st Hflat).
    cbn [for_ scan_walked_dir]. unfold bind. rewrite Hdir, Hrun. done.
  - intros p. rewrite Hu. split.
    + intros [?|(_ & ?)]; [set_solver|done].
    + intros (? & ? & ? & content & Hc & ?). right.
      split_and!; try done; [|by exists content].
      apply list_elem_of_fmap. exists (p, content). split; [done|].
      by apply elem_of_map_to_list.
Qed.

Lemma untracked_files_of_flat_tree_witness :
  ∃ untracked,
    get_untracked_files ∅ ∅ Scenario.fresh = Returned untracked Scenario.fresh
    ∧ ∀ p, p ∈ untracked ↔
        p ≠ "gitto.py" ∧ (p ∉ (∅ : gset string)) ∧ (p ∉ (∅ : gset string))
        ∧ ∃ content, worktree Scenario.fresh !! p = Some content
                     ∧ objects Scenario.fresh !! generate_hash content = None.
Proof.
  apply (untracked_files_of_flat_tree ∅ ∅ Scenario.fresh).
  - vm_compute. reflexivity.
  - intros p [text Hp]. unfold Scenario.fresh, Scenario.init_repo in Hp.
    cbn [worktree] in Hp. apply lookup_singleton_Some in Hp as [<- _].
    vm_compute. reflexivity.
Defined.

(** ** A committed file that is gone *)

Lemma bind_assoc_read {A B} st path text (k : string → M A) (k' : A → M B) :
  worktree st !! path = Some text →
  bind (bind (read_file path) k) k' st = bind (k text) k' st.
Proof.
  intros Hfile. unfold bind at 1 2. by rewrite (read_file_spec _ _ _ Hfile).
Qed.

Lemma scan_committed_files_missing (staged : gset string) (l : dict) sets st p ph :
  (p, ph) ∈ l → p ∉ staged → worktree st !! p = None →
  ∃ q, worktree st !! q = None
    ∧ for_ l (scan_committed_file staged) sets st
      = Raised (FileNotFoundError q) st.
Proof.
  intros Hin Hp Hgone. revert sets.
  induction l as [|[f fh] l IH]; intros [t c]; [by inversion Hin|].
  cbn [for_]. unfold scan_committed_file at 1.
  destruct (decide (f ∈ staged)) as [Hf|Hf].
  - assert ((p, ph) ∈ l) as Hl.
    { apply elem_of_cons in Hin as [[= -> ->]|?]; done. }
    destruct (IH Hl (t, c)) as (q & Hq & Hrun). exists q. split; [done|].
    unfold bind at 1, ret at 1. exact Hrun.
  - destruct (worktree st !! f) as [content|] eqn:Hfile.
    + assert ((p, ph) ∈ l) as Hl.
      { apply elem_of_cons in Hin as [[= -> ->]|?]; [congruence|done]. }
      rewrite (bind_assoc_read st f content) by done.
      unfold bind at 1, ret at 1.
      destruct (IH Hl ({[f]} ∪ t,
                       if decide (generate_hash content ≠ fh)
                       then {[f]} ∪ c else c)) as (q & Hq & Hrun).
      exists q. by split.
    + exists f. split; [done|]. unfold bind. by rewrite read_file_missing.
Qed.

Section Deleted.
Context `{PyLib}.

Lemma scan_committed_missing st h text c p ph :
  current_head st = Some h → objects st !! h = Some text →
  truthy (Some text) = true → json_loads text = Some c →
  (p, ph) ∈ files c → p ∉ dict_keys (index st) →
  worktree st !! p = None →
  ∃ q, worktree st !! q = None
    ∧ get_tracked_files (list_to_set (dict_keys (index st))) st
      = Raised (FileNotFoundError q) st.
Proof.
  intros Hhead Hobj Htext Hc Hin Hp Hgone.
  destruct (scan_committed_files_missing
              (list_to_set (dict_keys (index st))) (files c) (∅, ∅) st p ph)
    as (q & Hq & Hrun); [done|set_solver|done|].
  exists q. split; [done|].
  unfold get_tracked_files. apply bind_Raised.
  unfold scan_committed.
  rewrite (bind_Returned _ _ _ _ _ (get_current_head_spec st)), Hhead.
  rewrite (truthy_current_head _ _ Hhead).
  unfold bind at 1. cbn [get_commit_data]. unfold gets. rewrite Hobj, Htext.
  change (default "" (Some text)) with text.
  unfold bind at 1, loads. rewrite Hc. unfold ret at 1. exact Hrun.
Qed.

(** X6.  When a file of the commit HEAD names is not staged and is no
    longer in the working tree, the scan of the tracked files raises
    [FileNotFoundError], and with it [status], [add] and [restore], for
    every list of paths, before they print or change anything. *)
Theorem deleted_committed_file_stops_commands st h text c p ph paths :
  current_head st = Some h → objects st !! h = Some text →
  truthy (Some text) = true → json_loads text = Some c →
  (p, ph) ∈ files c → p ∉ dict_keys (index st) →
  worktree st !! p = None →
  ∃ q, worktree st !! q = None
    ∧ status st = Raised (FileNotFoundError q) st
    ∧ add paths st = Raised (FileNotFoundError q) st
    ∧ restore paths st = Raised (FileNotFoundError q) st.
Proof.
  intros Hhead Hobj Htext Hc Hin Hp Hgone.
  destruct (scan_committed_missing st h text c p ph) as (q & Hq & Hrun);
    try done.
  exists q. split; [done|]. split_and!.
  - unfold status.
    rewrite (bind_Returned _ _ _ _ _ (get_staged_files_spec st)).
    by apply bind_Raised.
  - unfold add.
    rewrite (bind_Returned _ _ _ _ _ (get_staged_files_spec st)).
    by apply bind_Raised.
  - unfold restore.
    rewrite (bind_Returned _ _ _ _ _ (get_current_head_spec st)), Hhead.
    rewrite (truthy_current_head _ _ Hhead). cbn [negb].
    unfold bind at 1, ret at 1.
    rewrite (bind_Returned _ _ _ _ _ (get_staged_files_spec st)).
    by apply bind_Raised.
Qed.

End Deleted.

Lemma deleted_committed_file_stops_commands_witness :
  ∃ q, worktree Cases.deleted !! q = None
    ∧ @status Scenario.lib Cases.deleted
      = Raised (FileNotFoundError q) Cases.deleted
    ∧ @add Scenario.lib ["."] Cases.deleted
      = Raised (FileNotFoundError q) Cases.deleted
    ∧ @restore Scenario.lib ["."] Cases.deleted
      = Raised (FileNotFoundError q) Cases.deleted.
Proof.
  apply (@deleted_committed_file_stops_commands Scenario.lib Cases.deleted
           "3d6abe0ab98be9731c93d261ac3371df127aaa2c"
           (json_dumps Scenario.first_commit) Scenario.first_commit
           "a.txt" (generate_hash "hello") ["."]).
  - vm_compute. reflexivity.
  - vm_compute. reflexivity.
  - vm_compute. reflexivity.
  - vm_compute. reflexivity.
  - apply list_elem_of_here.
  - vm_compute. apply not_elem_of_nil.
  - vm_compute. reflexivity.
Defined.

(** ** Restore, continued *)

Lemma bind_assoc_content {A B} st name text (k : string → M A) (k' : A → M B) :
  objects st !! name = Some text →
  bind (bind (get_file_content name) k) k' st = bind (k text) k' st.
Proof.
  intros Hobj. unfold bind at 1 2.
  by rewrite (get_file_content_spec _ _ _ Hobj).
Qed.

Lemma restore_match_hit path (d : dict) file_hash text st :
  dict_get path d = Some file_hash → objects st !! file_hash = Some text →
  for_each d (restore_match path) tt st
  = Returned Return
      (printed ("'" +:+ path +:+ "' restored to last commit version")
         (set_worktree <[path := text]> st)).
Proof.
  intros Hget Hobj. induction d as [|[f fh] d IH]; [done|].
  cbn [for_each dict_get] in *. unfold restore_match at 1.
  destruct (decide (path = f)) as [<-|Hne].
  - injection Hget as ->.
    rewrite (bind_assoc_content st file_hash text) by done.
    reflexivity.
  - unfold bind at 1, ret at 1. by apply IH.
Qed.

Section RestoreHit.
Context `{PyLib}.

Lemma restore_file_hit st path h ctext c file_hash text :
  current_head st = Some h → objects st !! h = Some ctext →
  truthy (Some ctext) = true → json_loads ctext = Some c →
  dict_get path (files c) = Some file_hash →
  objects st !! file_hash = Some text →
  restore_file path st
  = Returned tt
      (printed ("'" +:+ path +:+ "' restored to last commit version")
         (set_worktree <[path := text]> st)).
Proof.
  intros Hhead Hobj Htext Hc Hget Hblob. unfold restore_file.
  rewrite (bind_Returned _ _ _ _ _ (get_current_head_spec st)), Hhead.
  unfold bind at 1. cbn [get_commit_data]. unfold gets. rewrite Hobj, Htext.
  change (default "" (Some ctext)) with ctext.
  unfold bind at 1, loads. rewrite Hc. unfold ret at 1.
  unfold bind. by rewrite (restore_match_hit _ _ _ _ _ Hget Hblob).
Qed.

Lemma restore_hit st p h ctext c file_hash text tracked changed st1 :
  current_head st = Some h → objects st !! h = Some ctext →
  truthy (Some ctext) = true → json_loads ctext = Some c →
  get_tracked_files (list_to_set (dict_keys (index st))) st
  = Returned (tracked, changed) st1 →
  p ∈ changed →
  dict_get p (files c) = Some file_hash →
  objects st !! file_hash = Some text →
  restore [p] st
  = Returned tt
      (printed ("'" +:+ p +:+ "' restored to last commit version")
         (set_worktree <[p := text]> st)).
Proof.
  intros Hhead Hobj Htext Hc Htf Hchanged Hget Hblob.
  pose proof (read_only_Returned _ _ _ _ (read_only_get_tracked_files _) Htf)
    as ->.
  unfold restore.
  rewrite (bind_Returned _ _ _ _ _ (get_current_head_spec st)), Hhead.
  rewrite (truthy_current_head _ _ Hhead). cbn [negb].
  unfold bind at 1, ret at 1.
  rewrite (bind_Returned _ _ _ _ _ (get_staged_files_spec st)).
  rewrite (bind_Returned _ _ _ _ _ Htf).
  cbn [for_]. rewrite decide_True by done.
  by rewrite (bind_Returned _ _ _ _ _
                (restore_file_hit st p h ctext c file_hash text
                   Hhead Hobj Htext Hc Hget Hblob)).
Qed.


End RestoreHit.


(** ** Stage, commit, edit, restore *)

Lemma truthy_json_dumps c : truthy (Some (json_dumps c)) = true.
Proof. reflexivity. Qed.

Section RoundTrip.
Context `{PyLib}.

(** X8.  A file with the text [C] is staged in a repository with an empty
    index and committed, and then edited: the scan reports it as tracked
    and changed, and [restore] writes [C] back.  The library has to decode
    the text of the commit, and the digests of [C], of the new text and of
    the commit have to differ. *)
Theorem commit_edit_restore_round_trip st p C C' now msg :
  let c := mkCommit now msg [(p, generate_hash C)] (current_head st) in
  worktree st !! p = Some C → index st = [] →
  json_loads (json_dumps c) = Some c →
  generate_hash C' ≠ generate_hash C →
  generate_hash (json_dumps c) ≠ generate_hash C →
  ∃ st1 st2,
    add_file p st = Returned tt st1
    ∧ commit now msg st1 = Returned tt st2
    ∧ let st3 := set_worktree <[p := C']> st2 in
      get_tracked_files (list_to_set (dict_keys (index st3))) st3
      = Returned ({[p]}, {[p]}) st3
      ∧ ∃ st4, restore [p] st3 = Returned tt st4
          ∧ worktree st4 !! p = Some C
          ∧ index st4 = [] ∧ HEAD st4 = HEAD st2.
Proof.
  intros c Hfile Hindex Hloads Hedit Hfresh.
  eexists _, _. split; [by apply add_file_spec|].
  split; [apply commit_spec|].
  cbv zeta. unfold set_worktree at 1 2.
  cbn [index HEAD objects worktree directory stdout].
  rewrite Hindex. cbn [dict_set].
  change (current_head (mkRepo _ _ _ _ (HEAD st) _)) with (current_head st).
  fold c.
  set (hc := generate_hash (json_dumps c)).
  set (st3 := mkRepo _ (<[p := C']> _) _ _ _ _).
  assert (current_head st3 = Some hc) as Hhead by (by apply current_head_digest).
  assert (objects st3 !! hc = Some (json_dumps c)) as Hobj
    by apply lookup_insert_eq.
  assert (objects st3 !! generate_hash C = Some C) as Hblob.
  { unfold st3. cbn [objects]. rewrite lookup_insert_ne by done.
    apply lookup_insert_eq. }
  assert (worktree st3 !! p = Some C') as Hfile3 by apply lookup_insert_eq.
  assert (get_tracked_files (list_to_set (dict_keys (index st3))) st3
          = Returned ({[p]}, {[p]}) st3) as Htf.
  { unfold get_tracked_files, scan_committed.
    rewrite (bind_Returned _ _ st3 ({[p]}, {[p]}) st3).
    - unfold bind, load_index, gets. cbn [index st3].
      assert (elements (list_to_set (dict_keys []) : gset string) = [])
        as -> by apply elements_empty.
      reflexivity.
    - rewrite (bind_Returned _ _ _ _ _ (get_current_head_spec st3)), Hhead.
      rewrite (truthy_current_head _ _ Hhead).
      unfold bind at 1. cbn [get_commit_data]. unfold gets.
      rewrite Hobj, truthy_json_dumps.
      change (default "" (Some (json_dumps c))) with (json_dumps c).
      unfold bind at 1, loads. rewrite Hloads. unfold ret at 1.
      cbn [files c for_]. unfold scan_committed_file.
      rewrite decide_False by set_solver.
      rewrite (bind_assoc_read st3 p C') by done.
      unfold bind, ret. rewrite decide_True by done.
      f_equal. f_equal; set_solver. }
  split; [exact Htf|].
  eexists. split.
  - apply (restore_hit st3 p hc (json_dumps c) c
             (generate_hash C) C {[p]} {[p]} st3); try done;
      first [ apply truthy_json_dumps
            | set_solver
            | cbn [files c dict_get]; by rewrite decide_True ].
  - cbn [worktree printed set_stdout set_worktree index HEAD st3].
    split; [apply lookup_insert_eq|done].
Qed.

End RoundTrip.

Lemma commit_edit_restore_round_trip_witness :
  ∃ st1 st2,
    add_file "a.txt" Scenario.fresh = Returned tt st1
    ∧ commit Scenario.day1 "first" st1 = Returned tt st2
    ∧ let st3 := set_worktree <[ "a.txt" := "hello world" ]> st2 in
      @get_tracked_files Scenario.lib
        (list_to_set (dict_keys (index st3))) st3
      = Returned ({[ "a.txt" ]}, {[ "a.txt" ]}) st3
      ∧ ∃ st4, @restore Scenario.lib ["a.txt"] st3 = Returned tt st4
          ∧ worktree st4 !! "a.txt" = Some "hello"
          ∧ index st4 = [] ∧ HEAD st4 = HEAD st2.
Proof.
  apply (@commit_edit_restore_round_trip Scenario.lib Scenario.fresh
           "a.txt" "hello" "hello world" Scenario.day1 "first").
  - vm_compute. reflexivity.
  - reflexivity.
  - vm_compute. reflexivity.
  - intros Heq. vm_compute in Heq. discriminate.
  - intros Heq. vm_compute in Heq. discriminate.
Defined.

(** ** Log after a commit *)

Section Growth.
Context `{PyLib}.

Lemma history_mono (objs objs' : gmap string string) head entries :
  history objs head entries AtRoot →
  (∀ name text, objs !! name = Some text → objs' !! name = Some text) →
  history objs' head entries AtRoot.
Proof.
  intros Hhist Hsub.
  remember AtRoot as e eqn:He.
  induction Hhist as [head Hhead|h Hh Hobj
                     |h text c date entries e Hh Hobj Hc Hd Hrest IH];
    [by constructor|done|].
  subst e. eapply history_commit; eauto.
Qed.

(** X9.  After a commit the log starts with the new commit and goes on
    with what it showed before: when the chain from HEAD ends at a commit
    without parent, the digest of the new commit is not yet the name of an
    object, and the library decodes the new text and formats the date,
    [log] after [commit] prints the entry of the new commit and then the
    entries of the old chain. *)
Theorem log_after_commit st now msg date entries fuel now' :
  let c := mkCommit now msg (index st) (current_head st) in
  let hc := generate_hash (json_dumps c) in
  history (objects st) (current_head st) entries AtRoot →
  objects st !! hc = None →
  json_loads (json_dumps c) = Some c →
  format_date now = Some date →
  S (length entries) < fuel →
  ∃ st1, commit now msg st = Returned tt st1
    ∧ main now' fuel Log st1
      = Returned tt (printed_all (log_entry hc date msg :: entries) st1).
Proof.
  intros c hc Hhist Hfresh Hloads Hdate Hfuel.
  eexists. split; [apply commit_spec|]. fold c hc.
  set (st1 := mkRepo _ _ _ _ _ _).
  assert (current_head st1 = Some hc) as Hhead by (by apply current_head_digest).
  cbn [main]. unfold log.
  rewrite (bind_Returned _ _ _ _ _ (get_current_head_spec st1)), Hhead.
  rewrite (truthy_current_head _ _ Hhead).
  apply (log_loop_history (objects st1) (Some hc) _ AtRoot); [|done|].
  - apply (history_commit _ hc (json_dumps c) c date entries AtRoot).
    + destruct (generate_hash_no_whitespace (json_dumps c)) as [_ Hne].
      unfold truthy. by destruct (String.eqb_spec hc "").
    + apply lookup_insert_eq.
    + exact Hloads.
    + exact Hdate.
    + apply (history_mono (objects st)); [exact Hhist|].
      intros name text Hobj. unfold st1. cbn [objects].
      rewrite lookup_insert_ne; [done|]. intros <-. congruence.
  - simpl. lia.
Qed.

End Growth.

Lemma log_after_commit_witness :
  ∃ st1, commit Scenario.day1 "first" Scenario.staged_a = Returned tt st1
    ∧ @main Scenario.lib Scenario.day2 3 Log st1
      = Returned tt
          (printed_all
             [log_entry "3d6abe0ab98be9731c93d261ac3371df127aaa2c"
                "01 Jan 2024  10:00:00 " "first"] st1).
Proof.
  apply (@log_after_commit Scenario.lib Scenario.staged_a Scenario.day1
           "first" "01 Jan 2024  10:00:00 " [] 3 Scenario.day2).
  - apply history_root. vm_compute. reflexivity.
  - vm_compute. reflexivity.
  - vm_compute. reflexivity.
  - vm_compute. reflexivity.
  - simpl. lia.
Defined.

(** ** Diff of a commit whose parent is gone *)

Section ShowMissing.
Context `{PyLib}.

Lemma show_file_diff_parent_missing c ph p fh st :
  parent c = Some ph → truthy (Some ph) = true → objects st !! ph = None →
  show_file_diff c (p, fh) tt st
  = match objects st !! fh with
    | Some _ =>
        Returned Return
          (printed "Parent commit not found" (printed ("File: " +:+ p) st))
    | None =>
        Raised (FileNotFoundError
                  (path_join (directory st) (".gitto/objects/" +:+ fh)))
          (printed ("File: " +:+ p) st)
    end.
Proof.
  intros Hparent Hph Hpobj. unfold show_file_diff.
  rewrite (bind_Returned _ _ _ _ _ (print_spec _ st)).
  set (st1 := printed _ st).
  assert (objects st1 = objects st) as Hobjs by reflexivity.
  destruct (objects st !! fh) as [content|] eqn:Hfh.
  - rewrite (bind_Returned _ _ st1 content st1) by
      (apply get_file_content_spec; by rewrite Hobjs).
    rewrite Hparent, Hph. unfold bind at 1. cbn [get_commit_data].
    unfold gets. rewrite Hobjs, Hpobj. reflexivity.
  - apply bind_Raised. unfold get_file_content. by rewrite Hobjs, Hfh.
Qed.

(** X10.  For a commit whose parent is missing from the object store,
    [show_commit_diff] notices it only while it handles the first file:
    with an empty file-set it prints the heading alone; otherwise it prints
    the heading and the name of the first file, and then either
    "Parent commit not found", after which it returns, or, when the text of
    that file is missing too, nothing more, and raises
    [FileNotFoundError]. *)
Theorem show_commit_diff_parent_missing st h text c ph :
  objects st !! h = Some text → json_loads text = Some c →
  parent c = Some ph → truthy (Some ph) = true →
  objects st !! ph = None →
  show_commit_diff h st
  = match files c with
    | [] => Returned tt (printed "Changes from the last commit: " st)
    | (p, fh) :: _ =>
        match objects st !! fh with
        | Some _ =>
            Returned tt
              (printed_all ["Changes from the last commit: ";
                            "File: " +:+ p; "Parent commit not found"] st)
        | None =>
            Raised (FileNotFoundError
                      (path_join (directory st) (".gitto/objects/" +:+ fh)))
              (printed_all ["Changes from the last commit: ";
                            "File: " +:+ p] st)
        end
    end.
Proof.
  intros Hobj Hc Hparent Hph Hpobj.
  unfold show_commit_diff. unfold bind at 1.
  cbn [get_commit_data]. unfold gets. rewrite Hobj.
  unfold bind at 1, loads. rewrite Hc. unfold ret at 1.
  rewrite Hparent, Hph. cbn [negb].
  rewrite (bind_Returned _ _ _ _ _ (print_spec _ st)).
  destruct (files c) as [|[p fh] rest]; [reflexivity|].
  set (st1 := printed _ st).
  assert (objects st1 = objects st) as Hobjs by reflexivity.
  cbn [for_each]. unfold bind at 1 2.
  rewrite (show_file_diff_parent_missing c ph p fh st1) by
    (try done; by rewrite Hobjs).
  rewrite Hobjs.
  destruct (objects st !! fh); unfold ret; f_equal;
    unfold st1, printed, printed_all, set_stdout; cbn;
    by rewrite <- !app_assoc.
Qed.

End ShowMissing.

Lemma show_commit_diff_parent_missing_witness :
  @show_commit_diff Scenario.lib Cases.second_hash Scenario.corrupt
  = Returned tt
      (printed_all ["Changes from the last commit: "; "File: a.txt";
                    "Parent commit not found"] Scenario.corrupt).
Proof.
  pose proof (@show_commit_diff_parent_missing Scenario.lib Scenario.corrupt
                Cases.second_hash (json_dumps Scenario.second_commit)
                Scenario.second_commit
                "3d6abe0ab98be9731c93d261ac3371df127aaa2c") as Hshow.
  rewrite Hshow.
  - vm_compute. reflexivity.
  - vm_compute. reflexivity.
  - vm_compute. reflexivity.
  - vm_compute. reflexivity.
  - reflexivity.
  - vm_compute. reflexivity.
Defined.

(** ** Unstage *)

Lemma unstage_loop (staged : gset string) paths st :
  ∃ st', for_ paths
           (λ path _,
              if decide (path ∈ staged) then unstage_file path
              else print ("'" +:+ path +:+ "' is not in the staging area"))
           tt st
         = Returned tt st'
    ∧ ∀ k, dict_get k (index st')
           = if decide (k ∈ paths ∧ k ∈ staged) then None
             else dict_get k (index st).
Proof.
  revert st. induction paths as [|x paths IH]; intros st.
  - exists st. split; [done|]. intros k. rewrite decide_False; [done|].
    intros [Hk _]. by apply not_elem_of_nil in Hk.
  - cbn [for_].
    assert (∃ st1,
              (if decide (x ∈ staged) then unstage_file x
               else print ("'" +:+ x +:+ "' is not in the staging area")) st
              = Returned tt st1
              ∧ ∀ k, dict_get k (index st1)
                     = if decide (k = x ∧ k ∈ staged) then None
                       else dict_get k (index st))
      as (st1 & Hrun1 & Hidx1).
    { destruct (decide (x ∈ staged)) as [Hx|Hx].
      - rewrite unstage_file_spec.
        destruct (dict_mem x (index st)) eqn:Hmem; eexists;
          (split; [reflexivity|]); intros k; cbn [index printed set_stdout set_index].
        + destruct (decide (k = x ∧ k ∈ staged)) as [[-> _]|Hk].
          * apply dict_get_del_eq.
          * apply dict_get_del_ne. intros <-. by apply Hk.
        + destruct (decide (k = x ∧ k ∈ staged)) as [[-> _]|Hk]; [|done].
          unfold dict_mem in Hmem. apply bool_decide_eq_false in Hmem.
          destruct (dict_get x (index st)) eqn:E; [|done].
          exfalso. apply Hmem. by eexists.
      - eexists. split; [reflexivity|]. intros k.
        rewrite decide_False; [done|]. by intros [-> ?]. }
    destruct (IH st1) as (st' & Hrun & Hidx).
    exists st'. split.
    + by rewrite (bind_Returned _ _ _ _ _ Hrun1).
    + intros k. rewrite Hidx, Hidx1.
      repeat case_decide; try done; set_unfold; naive_solver.
Qed.


(** ** Add, continued *)

(** A loop that stages the paths of [l] that [need] it and prints a line
    for the others. *)
Lemma staging_loop (need : string → Prop) `{!∀ x, Decision (need x)}
    (body : string → unit → M unit) (l : list string) st :
  (∀ x s, need x → body x tt s = add_file x s) →
  (∀ x s, ¬ need x → ∃ line, body x tt s = Returned tt (printed line s)) →
  (∀ p, p ∈ l → need p → is_Some (worktree st !! p)) →
  ∃ st', for_ l body tt st = Returned tt st'
    ∧ worktree st' = worktree st ∧ HEAD st' = HEAD st
    ∧ (∀ name, is_Some (objects st !! name) → is_Some (objects st' !! name))
    ∧ (∀ p, p ∈ l → need p →
            ∃ C, worktree st !! p = Some C
                 ∧ dict_get p (index st') = Some (generate_hash C)
                 ∧ is_Some (objects st' !! generate_hash C))
    ∧ (∀ k, (k ∈ l → ¬ need k) →
            dict_get k (index st') = dict_get k (index st)).
Proof.
  intros Hadd Hskip. revert st.
  induction l as [|x l IH]; intros st Hfiles.
  - exists st. split_and!; try done. intros p Hp. by apply not_elem_of_nil in Hp.
  - destruct (decide (need x)) as [Hx|Hx].
    + destruct (Hfiles x (list_elem_of_here _ _) Hx) as [C HC].
      pose proof (add_file_spec st x C HC) as Hrun1.
      set (st1 := mkRepo _ _ _ _ _ _) in Hrun1.
      destruct (IH st1) as (st' & Hrun & Hw & Hh & Hmono & Hstaged & Hother).
      { intros p Hp Hn. apply Hfiles; [by apply list_elem_of_further|done]. }
      exists st'. split_and!; try done.
      * cbn [for_]. unfold bind at 1. by rewrite Hadd, Hrun1.
      * intros name Hname. apply Hmono. unfold st1. cbn [objects].
        destruct (decide (generate_hash C = name)) as [->|Hne].
        -- rewrite lookup_insert_eq. by eexists.
        -- by rewrite lookup_insert_ne.
      * intros p Hp Hn.
        destruct (decide (p ∈ l)) as [Hl|Hl]; [by apply Hstaged|].
        apply elem_of_cons in Hp as [->|?]; [|done].
        exists C. split_and!; [done| |].
        -- rewrite Hother by done. unfold st1. cbn [index].
           apply dict_get_set_eq.
        -- apply Hmono. unfold st1. cbn [objects].
           rewrite lookup_insert_eq. by eexists.
      * intros k Hk. rewrite Hother.
        -- unfold st1. cbn [index]. apply dict_get_set_ne.
           intros ->. by apply Hk; [apply list_elem_of_here|].
        -- intros Hl. apply Hk. by apply list_elem_of_further.
    + destruct (Hskip x st Hx) as [line Hrun1].
      destruct (IH (printed line st)) as
        (st' & Hrun & Hw & Hh & Hmono & Hstaged & Hother).
      { intros p Hp Hn. apply Hfiles; [by apply list_elem_of_further|done]. }
      exists st'. split_and!; try done.
      * cbn [for_]. by rewrite (bind_Returned _ _ _ _ _ Hrun1).
      * intros p Hp Hn. apply elem_of_cons in Hp as [->|?]; [done|].
        by apply Hstaged.
      * intros k Hk. rewrite Hother; [done|].
        intros Hl. apply Hk. by apply list_elem_of_further.
Qed.

(** The first loop of [add] runs to its end when every path is the token
    "." or is in one of the three sets; [addAll] is set when the token is
    among the paths. *)
Lemma check_paths_pass (staged tracked untracked : gset string) paths addAll st :
  (∀ p, p ∈ paths →
        p = "." ∨ p ∈ staged ∨ p ∈ tracked ∨ p ∈ untracked) →
  for_each paths (check_path staged tracked untracked) addAll st
  = Returned (Next (addAll || bool_decide ("." ∈ paths))) st.
Proof.
  revert addAll. induction paths as [|x paths IH]; intros addAll Hknown.
  - cbn [for_each]. rewrite bool_decide_eq_false_2 by apply not_elem_of_nil.
    by rewrite orb_false_r.
  - cbn [for_each]. unfold check_path at 1.
    destruct (decide (x = ".")) as [->|Hx].
    + unfold bind at 1, ret at 1. rewrite IH.
      * rewrite (bool_decide_eq_true_2 ("." ∈ "." :: paths))
          by apply list_elem_of_here.
        by rewrite orb_true_r.
      * intros p Hp. apply Hknown. by apply list_elem_of_further.
    + rewrite decide_False.
      * unfold bind at 1, ret at 1. rewrite IH.
        -- do 3 f_equal. apply bool_decide_ext. rewrite elem_of_cons.
           naive_solver.
        -- intros p Hp. apply Hknown. by apply list_elem_of_further.
      * intros (? & ? & ?).
        destruct (Hknown x (list_elem_of_here _ _)) as [?|[?|[?|?]]]; done.
Qed.

Section AddStages.
Context `{PyLib}.



End AddStages.



(** ** Initialisation *)


(** ** The search for the repository *)

Lemma find_repo_dir_from_spec has_gitto rpath :
  match find_repo_dir_from has_gitto rpath with
  | Some d =>
      d ≠ [] ∧ has_gitto d = true
      ∧ ∃ k, d = rev (drop k rpath)
             ∧ ∀ j, j < k → has_gitto (rev (drop j rpath)) = false
  | None =>
      ∀ j, j < length rpath → has_gitto (rev (drop j rpath)) = false
  end.
Proof.
  induction rpath as [|c parent IH]; [intros j Hj; simpl in Hj; lia|].
  cbn [find_repo_dir_from].
  destruct (has_gitto (rev (c :: parent))) eqn:Hhere.
  - split; [|split; [done|]].
    + intros Hnil. apply (f_equal length) in Hnil.
      rewrite length_rev in Hnil. simpl in Hnil. lia.
    + exists 0. split; [done|]. intros j Hj. lia.
  - destruct (find_repo_dir_from has_gitto parent) as [d|].
    + destruct IH as (Hne & Hd & k & -> & Hbelow).
      split; [done|]. split; [done|]. exists (S k). split; [done|].
      intros [|j] Hj; [done|]. apply Hbelow. lia.
    + intros [|j] Hj; [done|]. apply IH. simpl in Hj. lia.
Qed.

(** X15.  [find_repo_dir] returns the innermost directory, among the
    working directory and the directories above it, that holds [.gitto];
    it never returns the root, and it returns nothing when only the root,
    or no directory at all, holds [.gitto]. *)
Theorem find_repo_dir_innermost has_gitto cwd :
  match find_repo_dir has_gitto cwd with
  | Some d =>
      d `prefix_of` cwd ∧ d ≠ [] ∧ has_gitto d = true
      ∧ ∀ d', d' `prefix_of` cwd → length d < length d' →
              has_gitto d' = false
  | None =>
      ∀ d', d' `prefix_of` cwd → d' ≠ [] → has_gitto d' = false
  end.
Proof.
  unfold find_repo_dir.
  pose proof (find_repo_dir_from_spec has_gitto (rev cwd)) as Hspec.
  assert (∀ j, rev (drop j (rev cwd)) = take (length cwd - j) cwd) as Hdrop.
  { intros j. by rewrite List.skipn_rev, rev_involutive. }
  assert (∀ d', d' `prefix_of` cwd → d' = take (length d') cwd) as Hpre.
  { intros d' [rest ->]. by rewrite take_app_length. }
  destruct (find_repo_dir_from has_gitto (rev cwd)) as [d|].
  - destruct Hspec as (Hne & Hd & k & -> & Hbelow).
    rewrite Hdrop in *. split_and!; try done.
    + apply prefix_take.
    + intros d' Hd' Hlen. rewrite (Hpre d' Hd').
      pose proof (prefix_length _ _ Hd') as Hle.
      rewrite length_take in Hlen.
      replace (length d') with (length cwd - (length cwd - length d')) by lia.
      rewrite <- Hdrop. apply Hbelow. lia.
  - intros d' Hd' Hne. rewrite (Hpre d' Hd').
    pose proof (prefix_length _ _ Hd') as Hle.
    assert (0 < length d') by (destruct d'; [done|simpl; lia]).
    replace (length d') with (length cwd - (length cwd - length d')) by lia.
    rewrite <- Hdrop. apply Hspec. rewrite length_rev. lia.
Qed.

(** ** What the scan calls tracked *)

Lemma scan_committed_files_spec (staged : gset string) (l : dict)
    t0 c0 st t c st' :
  for_ l (scan_committed_file staged) (t0, c0) st = Returned (t, c) st' →
  (∀ p, p ∈ t ↔ p ∈ t0 ∨ (p ∈ dict_keys l ∧ (p ∉ staged)))
  ∧ (∀ p, p ∈ c ↔
          p ∈ c0
          ∨ ((p ∉ staged)
             ∧ ∃ h content, (p, h) ∈ l ∧ worktree st !! p = Some content
                            ∧ generate_hash content ≠ h)).
Proof.
  revert t0 c0. induction l as [|[f fh] l IH]; intros t0 c0 Hrun.
  - cbn [for_] in Hrun. inv_ret Hrun. unfold dict_keys. split; intros p.
    + rewrite fmap_nil. set_solver.
    + split; [by left|]. intros [?|(_ & ? & ? & Hin & _)]; [done|].
      by apply not_elem_of_nil in Hin.
  - cbn [for_] in Hrun. inv_bind Hrun as [t1 c1] st1 Hfile.
    pose proof (read_only_Returned _ _ _ _
                  (read_only_scan_committed_file _ _ _) Hfile) as ->.
    destruct (IH _ _ Hrun) as [Ht Hc]. clear IH Hrun.
    unfold scan_committed_file in Hfile. unfold dict_keys in *.
    destruct (decide (f ∈ staged)) as [Hf|Hf].
    + inv_ret Hfile. split; intros p.
      * rewrite Ht, fmap_cons, elem_of_cons. cbn [fst]. naive_solver.
      * rewrite Hc. split.
        -- intros [?|(? & h & content & ? & ?)]; [by left|].
           right. split; [done|]. exists h, content.
           split; [by apply list_elem_of_further|done].
        -- intros [?|(? & h & content & Hin & ?)]; [by left|].
           apply elem_of_cons in Hin as [[= -> ->]|Hin]; [done|].
           right. split; [done|]. by exists h, content.
    + unfold bind, read_file in Hfile.
      destruct (worktree st !! f) as [content|] eqn:Hcontent; [|done].
      inv_ret Hfile. split; intros p.
      * rewrite Ht, fmap_cons, elem_of_cons, elem_of_union, elem_of_singleton.
        cbn [fst]. naive_solver.
      * rewrite Hc. split.
        -- intros [Hp|(? & h & content' & ? & ?)].
           ++ destruct (decide (generate_hash content ≠ fh)) as [Hne|Heq].
              ** apply elem_of_union in Hp as [->%elem_of_singleton|?];
                   [|by left].
                 right. split; [done|]. exists fh, content.
                 split; [apply list_elem_of_here|done].
              ** by left.
           ++ right. split; [done|]. exists h, content'.
              split; [by apply list_elem_of_further|done].
        -- intros [?|(? & h & content' & Hin & Hc' & Hd)].
           ++ left. destruct (decide _); set_solver.
           ++ apply elem_of_cons in Hin as [[= -> ->]|Hin].
              ** left. assert (content' = content) as -> by congruence.
                 rewrite decide_True by done. set_solver.
              ** right. split; [done|]. by exists h, content'.
Qed.

Section Tracked.
Context `{PyLib}.

Lemma scan_committed_spec staged st t c st' :
  scan_committed staged st = Returned (t, c) st' →
  (∀ p, p ∈ t ↔ p ∈ dict_keys (latest_files st) ∧ (p ∉ staged))
  ∧ (∀ p, p ∈ c ↔
          (p ∉ staged)
          ∧ ∃ h content, (p, h) ∈ latest_files st
                         ∧ worktree st !! p = Some content
                         ∧ generate_hash content ≠ h).
Proof.
  unfold scan_committed, latest_files. intros Hrun.
  rewrite (bind_Returned _ _ _ _ _ (get_current_head_spec st)) in Hrun.
  assert (∀ (t c : gset string),
            Returned (A := gset string * gset string) (∅, ∅) st
            = Returned (t, c) st' →
            (∀ p, p ∈ t ↔ p ∈ dict_keys [] ∧ (p ∉ staged))
            ∧ (∀ p, p ∈ c ↔
                    (p ∉ staged)
                    ∧ ∃ h content, (p, h) ∈ ([] : dict)
                                   ∧ worktree st !! p = Some content
                                   ∧ generate_hash content ≠ h)) as Hempty.
  { intros t' c' [= <- <- _]. split; intros p.
    - unfold dict_keys. rewrite fmap_nil. set_solver.
    - split; [set_solver|]. intros (_ & ? & ? & Hin & _).
      by apply not_elem_of_nil in Hin. }
  destruct (current_head st) as [h|] eqn:Hhead; [|by apply Hempty].
  rewrite (truthy_current_head _ _ Hhead) in Hrun.
  unfold bind at 1 in Hrun. cbn [get_commit_data] in Hrun.
  unfold gets in Hrun.
  destruct (objects st !! h) as [text|]; [|by apply Hempty].
  destruct (truthy (Some text)); [|by apply Hempty].
  change (default "" (Some text)) with text in Hrun.
  unfold bind at 1, loads in Hrun.
  destruct (json_loads text) as [cj|]; [|done].
  unfold ret at 1 in Hrun.
  apply scan_committed_files_spec in Hrun as [Ht Hc]. split; intros p.
  - rewrite Ht. set_solver.
  - rewrite Hc. set_solver.
Qed.

Lemma get_tracked_files_spec st staged tracked changed st' :
  get_tracked_files staged st = Returned (tracked, changed) st' →
  (∀ p, p ∈ tracked ↔ p ∈ dict_keys (latest_files st) ∧ (p ∉ staged))
  ∧ (∀ p, p ∈ tracked →
          (p ∈ changed ↔
           ∃ h content, (p, h) ∈ latest_files st
                        ∧ worktree st !! p = Some content
                        ∧ generate_hash content ≠ h)).
Proof.
  unfold get_tracked_files. intros Hrun.
  inv_bind Hrun as [t c0] st1 Hcommitted.
  pose proof (read_only_Returned _ _ _ _ (read_only_scan_committed _)
                Hcommitted) as ->.
  apply scan_committed_spec in Hcommitted as [Ht Hc0].
  inv_bind Hrun as idx st2 Hidx. unfold load_index, gets in Hidx.
  inv_ret Hidx.
  inv_bind Hrun as c st3 Hstaged. inv_ret Hrun.
  pose proof (scan_staged_spec _ _ _ _ _ _ _ Hstaged) as Hspec.
  split; [exact Ht|]. intros p Hp. rewrite Hspec, Hc0.
  apply Ht in Hp as [_ Hns]. split.
  - intros [(_ & ?)|(Hin & _)]; [done|].
    by apply elem_of_elements in Hin.
  - intros ?. by left.
Qed.


End Tracked.


Section CommitTracks.
Context `{PyLib}.

Lemma commit_latest_files st now msg :
  let c := mkCommit now msg (index st) (current_head st) in
  json_loads (json_dumps c) = Some c →
  ∃ st1, commit now msg st = Returned tt st1
    ∧ latest_files st1 = index st
    ∧ ∀ staged tracked changed st2,
        get_tracked_files staged st1 = Returned (tracked, changed) st2 →
        ∀ p, p ∈ tracked → p ∈ dict_keys (index st).
Proof.
  intros c Hloads. eexists. split; [apply commit_spec|]. fold c.
  set (hc := generate_hash (json_dumps c)).
  set (st1 := mkRepo _ _ _ _ _ _).
  assert (latest_files st1 = index st) as Hfiles.
  { unfold latest_files.
    rewrite (current_head_digest st1 (json_dumps c)) by done. fold hc.
    assert (objects st1 !! hc = Some (json_dumps c)) as ->
      by apply lookup_insert_eq.
    by rewrite truthy_json_dumps, Hloads. }
  split; [done|].
  intros staged tracked changed st2 Htf p Hp.
  apply get_tracked_files_spec in Htf as [Ht _].
  apply Ht in Hp as [Hp _]. by rewrite Hfiles in Hp.
Qed.


End CommitTracks.


(** ** Two commits in a row *)

Section TwoCommits.
Context `{PyLib}.

(** X18.  [commit] clears the index and does not refuse an empty one: a
    second commit right after a commit records an empty file-set with the
    first commit as parent, and when the library decodes its text the
    commit HEAD names has no file afterwards, so that no file is tracked
    any more. *)
Theorem second_commit_forgets_files st now1 msg1 now2 msg2 :
  let c1 := mkCommit now1 msg1 (index st) (current_head st) in
  let c2 := mkCommit now2 msg2 [] (Some (generate_hash (json_dumps c1))) in
  json_loads (json_dumps c2) = Some c2 →
  ∃ st1 st2,
    commit now1 msg1 st = Returned tt st1
    ∧ commit now2 msg2 st1 = Returned tt st2
    ∧ HEAD st2 = generate_hash (json_dumps c2)
    ∧ objects st2 !! HEAD st2 = Some (json_dumps c2)
    ∧ latest_files st2 = []
    ∧ ∀ staged tracked changed st3,
        get_tracked_files staged st2 = Returned (tracked, changed) st3 →
        tracked = ∅.
Proof.
  intros c1 c2 Hloads.
  exists (final_state (commit now1 msg1 st)).
  rewrite (commit_spec now1 msg1 st). fold c1. cbn [final_state].
  set (st1 := mkRepo _ _ _ _ _ _).
  assert (current_head st1 = Some (generate_hash (json_dumps c1))) as Hhead
    by (by apply current_head_digest).
  destruct (commit_latest_files st1 now2 msg2)
    as (st2 & Hrun2 & Hfiles & Htracked).
  { by rewrite Hhead. }
  exists st2. split; [done|]. split; [exact Hrun2|].
  assert (HEAD st2 = generate_hash (json_dumps c2)
          ∧ objects st2 !! HEAD st2 = Some (json_dumps c2)) as [Hh2 Ho2].
  { rewrite commit_spec in Hrun2. rewrite Hhead in Hrun2.
    injection Hrun2 as <-. cbn [HEAD objects].
    split; [reflexivity|apply lookup_insert_eq]. }
  split; [exact Hh2|]. split; [exact Ho2|]. split; [exact Hfiles|].
  intros staged tracked changed st3 Htf.
  apply set_eq. intros p. split; [|set_solver].
  intros Hp. apply (Htracked _ _ _ _ Htf) in Hp.
  by apply not_elem_of_nil in Hp.
Qed.

End TwoCommits.

Lemma second_commit_forgets_files_witness :
  ∃ st1 st2,
    commit Scenario.day1 "first" Scenario.staged_a = Returned tt st1
    ∧ commit Cases.day3 "again" st1 = Returned tt st2
    ∧ HEAD st2 = generate_hash (json_dumps Cases.again_commit)
    ∧ objects st2 !! HEAD st2 = Some (json_dumps Cases.again_commit)
    ∧ @latest_files Cases.lib st2 = []
    ∧ ∀ staged tracked changed st3,
        @get_tracked_files Cases.lib staged st2
        = Returned (tracked, changed) st3 →
        tracked = ∅.
Proof.
  apply (@second_commit_forgets_files Cases.lib Scenario.staged_a
           Scenario.day1 "first" Cases.day3 "again").
  vm_compute. reflexivity.
Defined.

(** ** One object for equal texts *)



(** ** Status *)

Lemma print_loop (f : string → string) (l : list string) st :
  for_ l (λ file _, print (f file)) tt st
  = Returned tt (printed_all (f <$> l) st).
Proof.
  revert st. induction l as [|x l IH]; intros st; cbn [for_].
  - by rewrite printed_all_nil.
  - rewrite (bind_Returned _ _ _ _ _ (print_spec _ st)).
    by rewrite IH, fmap_cons, printed_all_cons.
Qed.

Lemma print_section title colour tail_line (paths : gset string) st :
  (if decide (paths ≠ ∅) then
     bind (print title)
       (λ _, bind (for_ (elements paths)
                     (λ file _,
                        print (ESC +:+ colour +:+ TAB +:+ file +:+ ESC
                               +:+ "[0m")) tt)
               (λ _, print tail_line))
   else ret tt) st
  = Returned tt
      (printed_all (status_section title colour [tail_line] paths) st).
Proof.
  unfold status_section. destruct (decide (paths ≠ ∅)).
  - rewrite (bind_Returned _ _ _ _ _ (print_spec _ st)).
    rewrite (bind_Returned _ _ _ _ _
               (print_loop
                  (λ file, ESC +:+ colour +:+ TAB +:+ file +:+ ESC +:+ "[0m")
                  _ _)).
    rewrite print_spec, !printed_printed_all, !printed_all_app. reflexivity.
  - by rewrite printed_all_nil.
Qed.


